(** * elk.BulkUdp: the field generator and the packet builder

    A shallow embedding of [src/elk/__init__.py]: the generator
    [BulkUdp._generate_fields], the size-bounded builder [BulkUdp.emit],
    and the parts of the Python run time they rest on ([str], [len],
    [str.encode], [json.dumps(value, default=str)]). *)

From Stdlib Require Import List ZArith NArith Lia Bool String Ascii.
From Stdlib Require Import Decimal DecimalString.
From Stdlib Require DecimalFacts DecimalPos DecimalN.
From Stdlib Require Strings.Byte.
Import ListNotations.

Local Open Scope Z_scope.

(** ** Exceptions and fallible computations *)

(** The exceptions of the model. All of them derive from [Exception]: they
    are the ones the bare [except] of line 90 hands to [handleError].
    [KeyboardInterrupt] and [SystemExit], which lines 88-89 raise again,
    are raised by nothing that is modelled. *)
Inductive exn : Type :=
| TypeError
| AttributeError
| ValueError
| UnicodeEncodeError.

Inductive result (A : Type) : Type :=
| Ok (a : A)
| Raise (e : exn).

Arguments Ok {A} a.
Arguments Raise {A} e.

Definition bind {A B : Type} (m : result A) (k : A -> result B) : result B :=
  match m with
  | Ok a => k a
  | Raise e => Raise e
  end.

Notation "x <- m ;; k" := (bind m (fun x => k))
  (at level 61, m at next level, right associativity).

(** ** Python text

    A [str] is a sequence of Unicode code points; [len] counts code
    points, [encode] gives the UTF-8 bytes. *)

Definition pystr : Type := list N.

Definition lit (s : string) : pystr := map N_of_ascii (list_ascii_of_string s).

Arguments lit s%_string.

Definition len (s : pystr) : Z := Z.of_nat (List.length s).

Definition QUOTE : N := 34.
Definition BACKSLASH : N := 92.
Definition NEWLINE : N := 10.

Fixpoint pystr_eqb (a b : pystr) : bool :=
  match a, b with
  | [], [] => true
  | x :: a', y :: b' => N.eqb x y && pystr_eqb a' b'
  | _, _ => false
  end.

Definition startswith (s : pystr) (c : N) : bool :=
  match s with
  | x :: _ => N.eqb x c
  | [] => false
  end.

Fixpoint join (sep : pystr) (parts : list pystr) : pystr :=
  match parts with
  | [] => []
  | [p] => p
  | p :: rest => p ++ sep ++ join sep rest
  end.

Definition byte_of_N (n : N) : Byte.byte :=
  match Byte.of_N n with
  | Some b => b
  | None => Byte.x00
  end.

Definition is_surrogate (c : N) : bool := ((55296 <=? c) && (c <=? 57343))%N.

(** UTF-8 of one code point; a lone surrogate cannot be encoded. *)
Definition utf8_char (c : N) : result (list Byte.byte) :=
  (if c <? 128 then Ok [byte_of_N c]
   else if c <? 2048 then
     Ok [byte_of_N (192 + c / 64); byte_of_N (128 + c mod 64)]
   else if is_surrogate c then Raise UnicodeEncodeError
   else if c <? 65536 then
     Ok [byte_of_N (224 + c / 4096); byte_of_N (128 + (c / 64) mod 64);
         byte_of_N (128 + c mod 64)]
   else
     Ok [byte_of_N (240 + c / 262144); byte_of_N (128 + (c / 4096) mod 64);
         byte_of_N (128 + (c / 64) mod 64); byte_of_N (128 + c mod 64)])%N.

(** [str.encode()] *)
Fixpoint encode (s : pystr) : result (list Byte.byte) :=
  match s with
  | [] => Ok []
  | c :: rest =>
      bs <- utf8_char c ;;
      more <- encode rest ;;
      Ok (bs ++ more)
  end.

(** ** Python values *)

(** A float is carried as the text [float.__repr__] gives for it: binary
    floating point arithmetic is outside the model. *)
Inductive pyfloat : Type :=
| FNaN
| FInf (negative : bool)
| FFinite (negative : bool) (int_part : N) (frac : uint)
          (exponent : option (bool * N)).

Unset Elimination Schemes.

Inductive pyval : Type :=
| PNone
| PBool (b : bool)
| PInt (z : Z)
| PFloat (f : pyfloat)
| PStr (s : pystr)
| PList (items : list pyval)
| PTuple (items : list pyval)
| PDict (items : list (pyval * pyval))
| PSubDict (items : list (pyval * pyval))
| PObj (str_of : pystr).
(** [PDict] is an instance of exactly [dict], in insertion order;
    [PSubDict] is an instance of a subclass of [dict] ([OrderedDict],
    [defaultdict], ...): a mapping for which [type(x) is dict] is false and
    which [json.dumps] writes like a dict. [PObj s] is an instance of any
    other class, whose [str] returns [s].

    Values are finite trees and the interpreter has no limits: a container
    that holds itself, an object whose [__str__] raises, instances of
    subclasses of the other built-in types, the recursion limit and the
    limit on the digits of an [int] are not represented. *)

Set Elimination Schemes.

(** ** json.dumps(value, default=str) *)

Definition str_of_N (n : N) : pystr := lit (NilZero.string_of_uint (N.to_uint n)).

Definition str_of_int (z : Z) : pystr := lit (NilZero.string_of_int (Z.to_int z)).

Definition hex_digit (n : N) : N :=
  (if n <? 10 then 48 + n else 87 + n)%N.

(** ['{0:04x}'.format(n)] for [n < 0x10000] *)
Definition hex4 (n : N) : pystr :=
  [hex_digit ((n / 4096) mod 16); hex_digit ((n / 256) mod 16);
   hex_digit ((n / 16) mod 16); hex_digit (n mod 16)]%N.

Definition u_escape (n : N) : pystr := BACKSLASH :: 117%N :: hex4 n.

(** The replacement [json.encoder.py_encode_basestring_ascii] makes for one
    character: [ESCAPE_ASCII] matches the quote, the backslash and
    everything outside [' '..'~']. *)
Definition escape_char (c : N) : pystr :=
  (if c =? 34 then [BACKSLASH; QUOTE]
   else if c =? 92 then [BACKSLASH; BACKSLASH]
   else if c =? 8 then [BACKSLASH; 98]
   else if c =? 12 then [BACKSLASH; 102]
   else if c =? 10 then [BACKSLASH; 110]
   else if c =? 13 then [BACKSLASH; 114]
   else if c =? 9 then [BACKSLASH; 116]
   else if (32 <=? c) && (c <=? 126) then [c]
   else if c <? 65536 then u_escape c
   else
     let n := c - 65536 in
     u_escape (N.lor 55296 (N.land (N.shiftr n 10) 1023))
       ++ u_escape (N.lor 56320 (N.land n 1023)))%N.

Definition encode_basestring_ascii (s : pystr) : pystr :=
  QUOTE :: flat_map escape_char s ++ [QUOTE].

Definition sign_text (negative : bool) : pystr :=
  if negative then lit "-" else [].

Definition exponent_text (e : option (bool * N)) : pystr :=
  match e with
  | None => []
  | Some (negative, n) =>
      lit "e" ++ (if negative then lit "-" else lit "+")
        ++ (if (n <? 10)%N then lit "0" else []) ++ str_of_N n
  end.

Definition frac_text (d : uint) : pystr :=
  match d with
  | Nil => []
  | _ => lit "." ++ lit (NilEmpty.string_of_uint d)
  end.

(** [json.encoder.floatstr] with [allow_nan=True] *)
Definition floatstr (f : pyfloat) : pystr :=
  match f with
  | FNaN => lit "NaN"
  | FInf false => lit "Infinity"
  | FInf true => lit "-Infinity"
  | FFinite negative i d e =>
      sign_text negative ++ str_of_N i ++ frac_text d ++ exponent_text e
  end.

(** The key of a dict member: only [str], [float], [bool], [None] and
    [int] keys are accepted ([skipkeys] is false, and [default] is not
    consulted for keys). *)
Definition dict_key (k : pyval) : result pystr :=
  match k with
  | PStr s => Ok s
  | PFloat f => Ok (floatstr f)
  | PBool true => Ok (lit "true")
  | PBool false => Ok (lit "false")
  | PNone => Ok (lit "null")
  | PInt z => Ok (str_of_int z)
  | _ => Raise TypeError
  end.

(** What [json.dumps(value, default=str)] does on the values above. Of
    the ways the encoder can raise, the model has the one that depends on
    the shape of the value alone: [TypeError] for a dict key it does not
    take. It also raises [ValueError] for a circular reference and for an
    [int] too long to convert, [RecursionError] for nesting that is too
    deep, and whatever a [__str__] raises: inputs the model leaves out.
    Nothing below concludes that the encoder returns; that it does is a
    hypothesis wherever it is needed. *)
Fixpoint dumps (v : pyval) : result pystr :=
  match v with
  | PNone => Ok (lit "null")
  | PBool true => Ok (lit "true")
  | PBool false => Ok (lit "false")
  | PInt z => Ok (str_of_int z)
  | PFloat f => Ok (floatstr f)
  | PStr s => Ok (encode_basestring_ascii s)
  | PList items | PTuple items =>
      parts <- (fix each (l : list pyval) : result (list pystr) :=
                  match l with
                  | [] => Ok []
                  | x :: r => s <- dumps x ;; ss <- each r ;; Ok (s :: ss)
                  end) items ;;
      Ok (lit "[" ++ join (lit ", ") parts ++ lit "]")
  | PDict items | PSubDict items =>
      parts <- (fix each (l : list (pyval * pyval)) : result (list pystr) :=
                  match l with
                  | [] => Ok []
                  | (k, x) :: r =>
                      ks <- dict_key k ;;
                      s <- dumps x ;;
                      ss <- each r ;;
                      Ok ((encode_basestring_ascii ks ++ lit ": " ++ s) :: ss)
                  end) items ;;
      Ok (lit "{" ++ join (lit ", ") parts ++ lit "}")
  | PObj s => Ok (encode_basestring_ascii s)
  end.


(** ** Log records and the handler *)

(** An insertion-ordered [dict] with [str] keys. *)
Definition attrs : Type := list (pystr * pyval).

Fixpoint lookup (name : pystr) (d : attrs) : option pyval :=
  match d with
  | [] => None
  | (k, v) :: rest => if pystr_eqb k name then Some v else lookup name rest
  end.

(** A [logging.LogRecord] is its [__dict__]: every data attribute the code
    reads ([record.msg], [record.levelno], ...) lives there, together with
    whatever the caller passed as [extra]. *)
Definition LogRecord : Type := attrs.

Definition getattr (record : LogRecord) (name : pystr) : result pyval :=
  match lookup name record with
  | Some v => Ok v
  | None => Raise AttributeError
  end.

(** [getattr(record, name, default)] *)
Definition getattr_default (record : LogRecord) (name : pystr) (default : pyval) : pyval :=
  match lookup name record with
  | Some v => v
  | None => default
  end.

(** [d.get(name, default)] on a [dict]: only a [str] key equals a [str]. *)
Fixpoint dict_get (d : list (pyval * pyval)) (name : pystr) (default : pyval) : pyval :=
  match d with
  | [] => default
  | (PStr k, v) :: rest => if pystr_eqb k name then v else dict_get rest name default
  | _ :: rest => dict_get rest name default
  end.

(** The attributes [BulkUdp.__init__] stores and the core reads ([host],
    [port] go to [DatagramHandler]; [type] is stored and never read). *)
Record BulkUdp : Type := {
  max_packet_size : Z;
  debugging_fields : bool;
  extra_fields : bool;
  fqdn : bool;
  localname : option pystr;
  service : pyval
}.

(** Truth value of [self.localname]: [None] and [''] are false. *)
Definition localname_truthy (self : BulkUdp) : bool :=
  match localname self with
  | None | Some [] => false
  | Some (_ :: _) => true
  end.

Definition SKIP_EXTRA_FIELDS : list pystr :=
  [lit "args"; lit "asctime"; lit "created"; lit "exc_info"; lit "exc_text";
   lit "filename"; lit "funcName"; lit "id"; lit "levelname"; lit "levelno";
   lit "lineno"; lit "module"; lit "msecs"; lit "msecs"; lit "message";
   lit "msg"; lit "name"; lit "pathname"; lit "process"; lit "processName";
   lit "relativeCreated"; lit "thread"; lit "threadName"].

Definition in_set (key : pystr) (s : list pystr) : bool :=
  existsb (pystr_eqb key) s.

(** The test of line 134: [key not in SKIP_EXTRA_FIELDS and not
    key.startswith('_')] *)
Definition is_extra (key : pystr) : bool :=
  negb (in_set key SKIP_EXTRA_FIELDS) && negb (startswith key 95%N).

(** What the library calls of the generator return on this host and for
    this record: [socket.getfqdn()], [socket.gethostname()],
    [record.getMessage()] and
    [datetime.datetime.utcfromtimestamp(created).isoformat()]. *)
Record platform : Type := {
  getfqdn : pystr;
  gethostname : pystr;
  getMessage : LogRecord -> result pystr;
  utc_isoformat : pyval -> result pystr
}.

(** The module [socket] defines no attribute [localname]: reading
    [socket.localname] raises. *)
Definition socket_localname : result pyval := Raise AttributeError.

(** ** The field generator *)

(** What a generator does when it is resumed: it yields a pair and can be
    resumed again, it returns, or it raises. The consumer decides how far
    the sequence is run. *)
Inductive fieldgen : Type :=
| Stop
| Yield (key : pystr) (value : pyval) (rest : fieldgen)
| Throw (e : exn).

Definition attempt {A : Type} (m : result A) (k : A -> fieldgen) : fieldgen :=
  match m with
  | Ok a => k a
  | Raise e => Throw e
  end.

Notation "x <~ m ;; k" := (attempt m (fun x => k))
  (at level 61, m at next level, right associativity).

Notation "'yield' key , value ;; k" := (Yield key value k)
  (at level 61, key at next level, value at next level, right associativity).

Section Generator.

Variable sys : platform.
Variable self : BulkUdp.
Variable record : LogRecord.

(** Lines 132-135 *)
Fixpoint extras (items : attrs) : fieldgen :=
  match items with
  | [] => Stop
  | (key, value) :: rest =>
      if is_extra key
      then yield (lit "_" ++ key), value ;; extras rest
      else extras rest
  end.

Definition extra_part : fieldgen :=
  if extra_fields self then extras record else Stop.

(** Lines 121-130 *)
Definition debugging_part (k : fieldgen) : fieldgen :=
  if debugging_fields self then
    pathname <~ getattr record (lit "pathname") ;;
    yield (lit "file"), pathname ;;
    lineno <~ getattr record (lit "lineno") ;;
    yield (lit "line"), lineno ;;
    funcName <~ getattr record (lit "funcName") ;;
    yield (lit "_function"), funcName ;;
    process <~ getattr record (lit "process") ;;
    yield (lit "_pid"), process ;;
    threadName <~ getattr record (lit "threadName") ;;
    yield (lit "_thread_name"), threadName ;;
    match getattr_default record (lit "processName") PNone with
    | PNone => k
    | pn => yield (lit "_process_name"), pn ;; k
    end
  else k.

(** Lines 96-101 *)
Definition fields_and_message : result (pyval * pyval) :=
  msg <- getattr record (lit "msg") ;;
  match msg with
  | PDict d =>
      rendered <- getMessage sys record ;;
      Ok (msg, dict_get d (lit "message") (PStr rendered))
  | _ =>
      rendered <- getMessage sys record ;;
      Ok (PDict [], PStr rendered)
  end.

(** Lines 106-111 *)
Definition logsource : result pyval :=
  if fqdn self then Ok (PStr (getfqdn sys))
  else if localname_truthy self then socket_localname
  else Ok (PStr (gethostname sys)).

Definition _generate_fields : fieldgen :=
  yield (lit "@version"), (PStr (lit "1")) ;;
  fm <~ fields_and_message ;;
  yield (lit "@fields"), (fst fm) ;;
  yield (lit "message"), (snd fm) ;;
  source <~ logsource ;;
  yield (lit "logsource"), source ;;
  levelno <~ getattr record (lit "levelno") ;;
  yield (lit "severity"), levelno ;;
  created <~ getattr record (lit "created") ;;
  iso <~ utc_isoformat sys created ;;
  yield (lit "@timestamp"), (PStr (iso ++ lit "Z")) ;;
  levelname <~ getattr record (lit "levelname") ;;
  yield (lit "level"), levelname ;;
  name <~ getattr record (lit "name") ;;
  yield (lit "name"), name ;;
  yield (lit "service"), (service self) ;;
  debugging_part extra_part.

End Generator.

(** ** The packet builder *)

Record builder : Type := {
  packet : pystr;
  first_field : bool
}.

Definition start : builder := {| packet := lit "{"; first_field := true |}.

Definition member (key value_json : pystr) : pystr :=
  [QUOTE] ++ key ++ [QUOTE] ++ lit ":" ++ value_json.

Inductive verdict : Type :=
| Committed (st : builder)
| Skipped
| Stopped.

(** The body of the loop (lines 72-84) once the value is serialized. *)
Definition consider (max : Z) (st : builder) (key value_json : pystr) : verdict :=
  let bytes_left := max - len (packet st) in
  if len value_json + len key + 5 <? bytes_left then
    if negb (first_field st) then
      Committed {| packet := packet st ++ lit "," ++ member key value_json;
                   first_field := first_field st |}
    else
      Committed {| packet := packet st ++ member key value_json;
                   first_field := false |}
  else if bytes_left <? 16 then Stopped
  else Skipped.

(** The loop of lines 71-84 over the rest of the generator. *)
Fixpoint build (max : Z) (st : builder) (g : fieldgen) : result builder :=
  match g with
  | Stop => Ok st
  | Throw e => Raise e
  | Yield key value rest =>
      value_json <- dumps value ;;
      match consider max st key value_json with
      | Committed st' => build max st' rest
      | Skipped => build max st rest
      | Stopped => Ok st
      end
  end.

Definition finish (st : builder) : pystr := packet st ++ lit "}" ++ [NEWLINE].

(** How [emit] leaves the code of this file. [Sent data]: line 87 is
    reached and [self.send(data)] is called; what the socket then does
    with the datagram, and that a [send] which raises ends in
    [handleError] as well, belongs to [DatagramHandler] and is not
    modelled. [HandledError e]: [e] was raised before [send] was called,
    and [self.handleError(record)] is called. *)
Inductive emitted : Type :=
| Sent (data : list Byte.byte)
| HandledError (e : exn).

(** The text handed to [encode] on line 87. *)
Definition emit_packet (sys : platform) (self : BulkUdp) (record : LogRecord) : result pystr :=
  st <- build (max_packet_size self) start (_generate_fields sys self record) ;;
  Ok (finish st).

Definition emit (sys : platform) (self : BulkUdp) (record : LogRecord) : emitted :=
  match (p <- emit_packet sys self record ;; encode p) with
  | Ok data => Sent data
  | Raise e => HandledError e
  end.

(** ** The points of a construction

    [run max st g ms st' g'] holds when the loop, entered in state [st]
    with [g] left to consume, later stands at the head of the loop in state
    [st'] with [g'] left; [ms] lists the members committed in between. *)
Inductive run (max : Z) : builder -> fieldgen -> list pystr -> builder -> fieldgen -> Prop :=
| run_here st g : run max st g [] st g
| run_commit st key value rest value_json st' ms st'' g'' :
    dumps value = Ok value_json ->
    consider max st key value_json = Committed st' ->
    run max st' rest ms st'' g'' ->
    run max st (Yield key value rest) (member key value_json :: ms) st'' g''
| run_skip st key value rest value_json ms st'' g'' :
    dumps value = Ok value_json ->
    consider max st key value_json = Skipped ->
    run max st rest ms st'' g'' ->
    run max st (Yield key value rest) ms st'' g''.

(** The loop is over: the generator returned, or the builder broke out. *)
Definition halted (max : Z) (st : builder) (g : fieldgen) : Prop :=
  g = Stop \/
  exists key value rest value_json,
    g = Yield key value rest /\ dumps value = Ok value_json /\
    consider max st key value_json = Stopped.

Definition commas (ms : list pystr) : pystr :=
  flat_map (fun m => lit "," ++ m) ms.

Definition ascii_text (s : pystr) : Prop := Forall (fun c => (c < 128)%N) s.

Inductive gen_all (P : pystr -> pyval -> Prop) : fieldgen -> Prop :=
| all_stop : gen_all P Stop
| all_throw e : gen_all P (Throw e)
| all_yield key value rest :
    P key value -> gen_all P rest -> gen_all P (Yield key value rest).

(** ** Auxiliary views of [dumps] and of [pyval] *)

Fixpoint dumps_items (l : list pyval) : result (list pystr) :=
  match l with
  | [] => Ok []
  | x :: r => s <- dumps x ;; ss <- dumps_items r ;; Ok (s :: ss)
  end.

Fixpoint dumps_members (l : list (pyval * pyval)) : result (list pystr) :=
  match l with
  | [] => Ok []
  | (k, x) :: r =>
      ks <- dict_key k ;;
      s <- dumps x ;;
      ss <- dumps_members r ;;
      Ok ((encode_basestring_ascii ks ++ lit ": " ++ s) :: ss)
  end.

Section PyvalInduction.

Variable P : pyval -> Prop.
Hypothesis HNone : P PNone.
Hypothesis HBool : forall b, P (PBool b).
Hypothesis HInt : forall z, P (PInt z).
Hypothesis HFloat : forall f, P (PFloat f).
Hypothesis HStr : forall s, P (PStr s).
Hypothesis HList : forall items, Forall P items -> P (PList items).
Hypothesis HTuple : forall items, Forall P items -> P (PTuple items).
Hypothesis HDict : forall items, Forall (fun kv => P (fst kv) /\ P (snd kv)) items -> P (PDict items).
Hypothesis HSubDict :
  forall items, Forall (fun kv => P (fst kv) /\ P (snd kv)) items -> P (PSubDict items).
Hypothesis HObj : forall s, P (PObj s).

Fixpoint pyval_ind (v : pyval) : P v :=
  match v with
  | PNone => HNone
  | PBool b => HBool b
  | PInt z => HInt z
  | PFloat f => HFloat f
  | PStr s => HStr s
  | PList items =>
      HList items
        ((fix all (l : list pyval) : Forall P l :=
            match l with
            | [] => Forall_nil P
            | x :: r => Forall_cons x (pyval_ind x) (all r)
            end) items)
  | PTuple items =>
      HTuple items
        ((fix all (l : list pyval) : Forall P l :=
            match l with
            | [] => Forall_nil P
            | x :: r => Forall_cons x (pyval_ind x) (all r)
            end) items)
  | PDict items =>
      HDict items
        ((fix all (l : list (pyval * pyval)) : Forall (fun kv => P (fst kv) /\ P (snd kv)) l :=
            match l with
            | [] => Forall_nil _
            | kv :: r => Forall_cons kv (conj (pyval_ind (fst kv)) (pyval_ind (snd kv))) (all r)
            end) items)
  | PSubDict items =>
      HSubDict items
        ((fix all (l : list (pyval * pyval)) : Forall (fun kv => P (fst kv) /\ P (snd kv)) l :=
            match l with
            | [] => Forall_nil _
            | kv :: r => Forall_cons kv (conj (pyval_ind (fst kv)) (pyval_ind (snd kv))) (all r)
            end) items)
  | PObj s => HObj s
  end.

End PyvalInduction.

(** ** A host, a record and handlers to evaluate the code on *)

Module Sample.

Definition rendering (msg : pyval) : pystr :=
  match msg with
  | PStr s => s
  | PSubDict _ => lit "OrderedDict([('message', 'hello'), ('code', 7)])"
  | _ => lit "{'message': 'hello', 'code': 7}"
  end.

Definition sys : platform := {|
  getfqdn := lit "web1.example.org";
  gethostname := lit "web1";
  getMessage := fun r => msg <- getattr r (lit "msg") ;; Ok (rendering msg);
  utc_isoformat := fun _ => Ok (lit "2020-01-01T00:00:00")
|}.

(** The attributes [LogRecord.__init__] sets, in its order. *)
Definition standard (msg : pyval) : LogRecord :=
  [(lit "name", PStr (lit "app")); (lit "msg", msg); (lit "args", PTuple []);
   (lit "levelname", PStr (lit "INFO")); (lit "levelno", PInt 20);
   (lit "pathname", PStr (lit "/srv/app.py")); (lit "filename", PStr (lit "app.py"));
   (lit "module", PStr (lit "app")); (lit "exc_info", PNone); (lit "exc_text", PNone);
   (lit "stack_info", PNone); (lit "lineno", PInt 12); (lit "funcName", PStr (lit "main"));
   (lit "created", PFloat (FFinite false 1577836800 (D0 Nil) None));
   (lit "msecs", PFloat (FFinite false 0 (D0 Nil) None));
   (lit "relativeCreated", PFloat (FFinite false 15 (D2 (D5 Nil)) None));
   (lit "thread", PInt 140);
   (lit "threadName", PStr (lit "MainThread"));
   (lit "processName", PStr (lit "MainProcess")); (lit "process", PInt 4711)].

(** [logger.info("started", extra={...})] *)
Definition record (extra : attrs) : LogRecord := standard (PStr (lit "started")) ++ extra.

Definition handler (max : Z) (debugging extra : bool) : BulkUdp := {|
  max_packet_size := max;
  debugging_fields := debugging;
  extra_fields := extra;
  fqdn := false;
  localname := None;
  service := PStr (lit "logstash")
|}.

(** [BulkUdp(host, localname="web1")] *)
Definition named_handler : BulkUdp := {|
  max_packet_size := 65536;
  debugging_fields := false;
  extra_fields := true;
  fqdn := false;
  localname := Some (lit "web1");
  service := PStr (lit "logstash")
|}.

End Sample.

(** The keys the generator writes out itself, in its order. *)
Definition mandatory_keys : list pystr :=
  [lit "@version"; lit "@fields"; lit "message"; lit "logsource"; lit "severity";
   lit "@timestamp"; lit "level"; lit "name"; lit "service"].

Definition debugging_keys : list pystr :=
  [lit "file"; lit "line"; lit "_function"; lit "_pid"; lit "_thread_name";
   lit "_process_name"].

(** The pairs a generator yields before it returns or raises. *)
Fixpoint yielded (g : fieldgen) : list (pystr * pyval) :=
  match g with
  | Yield key value rest => (key, value) :: yielded rest
  | Stop | Throw _ => []
  end.

(** The generator runs to its end without raising. *)
Fixpoint returns (g : fieldgen) : Prop :=
  match g with
  | Stop => True
  | Yield _ _ rest => returns rest
  | Throw _ => False
  end.

(** The extra field line 135 makes of an attribute. *)
Definition prefixed (kv : pystr * pyval) : pystr * pyval := (lit "_" ++ fst kv, snd kv).

Definition extra_fields_of (record : LogRecord) : list (pystr * pyval) :=
  map prefixed (filter (fun kv => is_extra (fst kv)) record).


Fixpoint is_prefix (needle hay : pystr) : bool :=
  match needle, hay with
  | [], _ => true
  | x :: needle', y :: hay' => N.eqb x y && is_prefix needle' hay'
  | _ :: _, [] => false
  end.

(** How many times [needle] occurs in [hay]. *)
Fixpoint occurrences (needle hay : pystr) : nat :=
  match hay with
  | [] => 0%nat
  | _ :: hay' => ((if is_prefix needle hay then 1 else 0) + occurrences needle hay')%nat
  end.






(** ** JSON texts (RFC 8259)

    The grammar a receiver parses a datagram with, as predicates on
    texts: what "syntactically valid JSON" means below. *)

Definition is_ws (c : N) : Prop := (c = 32 \/ c = 9 \/ c = 10 \/ c = 13)%N.

Definition blank (s : pystr) : Prop := Forall is_ws s.

Definition is_digit (c : N) : Prop := (48 <= c <= 57)%N.

Definition is_hex (c : N) : Prop :=
  (48 <= c <= 57 \/ 97 <= c <= 102 \/ 65 <= c <= 70)%N.

(** The characters between the quotes of a string. *)
Inductive json_chars : pystr -> Prop :=
| chars_nil : json_chars []
| chars_plain c s :
    (32 <= c)%N -> c <> QUOTE -> c <> BACKSLASH -> json_chars s -> json_chars (c :: s)
| chars_escape e s :
    In e [34; 92; 47; 98; 102; 110; 114; 116]%N -> json_chars s ->
    json_chars (BACKSLASH :: e :: s)
| chars_unicode h1 h2 h3 h4 s :
    is_hex h1 -> is_hex h2 -> is_hex h3 -> is_hex h4 -> json_chars s ->
    json_chars (BACKSLASH :: 117%N :: h1 :: h2 :: h3 :: h4 :: s).

Definition json_digits (s : pystr) : Prop := s <> [] /\ Forall is_digit s.

Inductive json_int : pystr -> Prop :=
| int_zero : json_int [48%N]
| int_digits d ds : (49 <= d <= 57)%N -> Forall is_digit ds -> json_int (d :: ds).

Inductive json_frac : pystr -> Prop :=
| frac_none : json_frac []
| frac_some ds : json_digits ds -> json_frac (46%N :: ds).

Inductive json_exp : pystr -> Prop :=
| exp_none : json_exp []
| exp_some e sign ds :
    (e = 101 \/ e = 69)%N -> sign = [] \/ sign = [43%N] \/ sign = [45%N] ->
    json_digits ds -> json_exp (e :: sign ++ ds).

Inductive json_number : pystr -> Prop :=
| number_intro minus i f e :
    minus = [] \/ minus = [45%N] -> json_int i -> json_frac f -> json_exp e ->
    json_number (minus ++ i ++ f ++ e).

Inductive json_value : pystr -> Prop :=
| value_null : json_value (lit "null")
| value_true : json_value (lit "true")
| value_false : json_value (lit "false")
| value_number s : json_number s -> json_value s
| value_string s : json_chars s -> json_value (QUOTE :: s ++ [QUOTE])
| value_array s : json_array s -> json_value s
| value_object s : json_object s -> json_value s
with json_array : pystr -> Prop :=
| array_empty w : blank w -> json_array (lit "[" ++ w ++ lit "]")
| array_elements s : json_elements s -> json_array (lit "[" ++ s ++ lit "]")
with json_elements : pystr -> Prop :=
| elements_one e : json_element e -> json_elements e
| elements_more e rest :
    json_element e -> json_elements rest -> json_elements (e ++ lit "," ++ rest)
with json_element : pystr -> Prop :=
| element_intro w1 v w2 :
    blank w1 -> json_value v -> blank w2 -> json_element (w1 ++ v ++ w2)
with json_object : pystr -> Prop :=
| object_empty w : blank w -> json_object (lit "{" ++ w ++ lit "}")
| object_members s : json_members s -> json_object (lit "{" ++ s ++ lit "}")
with json_members : pystr -> Prop :=
| members_one m : json_member m -> json_members m
| members_more m rest :
    json_member m -> json_members rest -> json_members (m ++ lit "," ++ rest)
with json_member : pystr -> Prop :=
| member_intro w1 k w2 e :
    blank w1 -> json_chars k -> blank w2 -> json_element e ->
    json_member (w1 ++ QUOTE :: k ++ [QUOTE] ++ w2 ++ lit ":" ++ e).

(** No float that is a value (at any depth) is a NaN or an infinity, which
    [json.dumps] writes as [NaN], [Infinity] and [-Infinity]. *)
Fixpoint finite_floats (v : pyval) : bool :=
  match v with
  | PFloat FNaN | PFloat (FInf _) => false
  | PList items | PTuple items =>
      (fix all (l : list pyval) : bool :=
         match l with
         | [] => true
         | x :: r => finite_floats x && all r
         end) items
  | PDict items | PSubDict items =>
      (fix all (l : list (pyval * pyval)) : bool :=
         match l with
         | [] => true
         | (_, x) :: r => finite_floats x && all r
         end) items
  | _ => true
  end.

Fixpoint finite_items (l : list pyval) : bool :=
  match l with
  | [] => true
  | x :: r => finite_floats x && finite_items r
  end.

Fixpoint finite_members (l : list (pyval * pyval)) : bool :=
  match l with
  | [] => true
  | (_, x) :: r => finite_floats x && finite_members r
  end.

(** A field the builder can write out as a valid member: the key, put
    between quotes as it is, is a JSON string, and the value has no NaN. *)
Definition writable (key : pystr) (value : pyval) : Prop :=
  json_chars key /\ finite_floats value = true.

(** ** Notions for the further properties *)

(** [subseq l1 l2]: [l1] is [l2] with some elements left out. *)
Inductive subseq {A : Type} : list A -> list A -> Prop :=
| subseq_nil l : subseq [] l
| subseq_take x l1 l2 : subseq l1 l2 -> subseq (x :: l1) (x :: l2)
| subseq_skip x l1 l2 : subseq l1 l2 -> subseq l1 (x :: l2).

(** The member as [emit] would write it for a generated field. *)
Definition written (kv : pystr * pyval) (m : pystr) : Prop :=
  exists value_json, dumps (snd kv) = Ok value_json /\ m = member (fst kv) value_json.


Definition printable (c : N) : Prop := (32 <= c <= 126)%N.

Definition printable_text (s : pystr) : Prop := Forall printable s.

Definition no_surrogate (s : pystr) : Prop := Forall (fun c => is_surrogate c = false) s.

(** The keys of the debugging fields the generator yields for a record
    (lines 121-130). *)
Definition debug_keys_of (self : BulkUdp) (record : LogRecord) : list pystr :=
  if debugging_fields self then
    [lit "file"; lit "line"; lit "_function"; lit "_pid"; lit "_thread_name"]
      ++ match getattr_default record (lit "processName") PNone with
         | PNone => []
         | _ => [lit "_process_name"]
         end
  else [].

(** Unicode scalar values: the code points that are not surrogates. *)
Definition scalar (c : N) : Prop := (c < 55296 \/ 57344 <= c <= 1114111)%N.

(** Reading back what [escape_char] writes: the value of a hexadecimal
    digit, of four of them, and the character at the head of an escaped
    text with the rest of the text. *)
Definition hex_value (h : N) : N := (if h <? 58 then h - 48 else h - 87)%N.

Definition hex4_value (h1 h2 h3 h4 : N) : N :=
  (((hex_value h1 * 16 + hex_value h2) * 16 + hex_value h3) * 16 + hex_value h4)%N.

Definition unescape_head (s : pystr) : option (N * pystr) :=
  match s with
  | [] => None
  | c :: rest =>
      if negb (c =? 92)%N then Some (c, rest)
      else
        match rest with
        | [] => None
        | e :: rest1 =>
            if (e =? 117)%N then
              match rest1 with
              | h1 :: h2 :: h3 :: h4 :: rest2 =>
                  let u := hex4_value h1 h2 h3 h4 in
                  if ((55296 <=? u) && (u <? 56320))%N then
                    match rest2 with
                    | _ :: _ :: l1 :: l2 :: l3 :: l4 :: rest3 =>
                        Some ((65536 + (u - 55296) * 1024
                               + (hex4_value l1 l2 l3 l4 - 56320))%N, rest3)
                    | _ => None
                    end
                  else Some (u, rest2)
              | _ => None
              end
            else if (e =? 98)%N then Some (8%N, rest1)
            else if (e =? 102)%N then Some (12%N, rest1)
            else if (e =? 110)%N then Some (10%N, rest1)
            else if (e =? 114)%N then Some (13%N, rest1)
            else if (e =? 116)%N then Some (9%N, rest1)
            else Some (e, rest1)
        end
  end.
Create HintDb elk.
#[local] Hint Constructors run gen_all : elk.

(** * Properties of the builder *)

Lemma len_app (a b : pystr) : len (a ++ b) = len a + len b.
Proof. unfold len. rewrite List.length_app. lia. Qed.

Lemma len_cons (c : N) (s : pystr) : len (c :: s) = 1 + len s.
Proof. unfold len. cbn [List.length]. lia. Qed.

Lemma len_nonneg (s : pystr) : 0 <= len s.
Proof. unfold len. lia. Qed.

Lemma len_member (key value_json : pystr) :
  len (member key value_json) = len key + len value_json + 3.
Proof.
  unfold member. rewrite !len_app. change (len [QUOTE]) with 1.
  change (len (lit ":")) with 1. lia.
Qed.

Lemma join_cons (sep m : pystr) (ms : list pystr) :
  join sep (m :: ms) = m ++ flat_map (fun x => sep ++ x) ms.
Proof.
  revert m. induction ms as [|m' ms IH]; intro m.
  - cbn. now rewrite List.app_nil_r.
  - change (join sep (m :: m' :: ms)) with (m ++ sep ++ join sep (m' :: ms)).
    rewrite IH. cbn [flat_map]. now rewrite <- List.app_assoc.
Qed.

Lemma consider_cases (max : Z) (st : builder) (key value_json : pystr) :
  let bytes_left := max - len (packet st) in
  (len value_json + len key + 5 < bytes_left /\
   consider max st key value_json =
     Committed {| packet := packet st ++ (if first_field st then [] else lit ",")
                              ++ member key value_json;
                  first_field := false |}) \/
  (~ len value_json + len key + 5 < bytes_left /\ bytes_left < 16 /\
   consider max st key value_json = Stopped) \/
  (~ len value_json + len key + 5 < bytes_left /\ 16 <= bytes_left /\
   consider max st key value_json = Skipped).
Proof.
  intro bytes_left. unfold consider. fold bytes_left.
  destruct (Z.ltb_spec (len value_json + len key + 5) bytes_left) as [Hfit|Hfit].
  - left. split; [assumption|]. destruct (first_field st) eqn:E; cbn; rewrite ?E; reflexivity.
  - right. destruct (Z.ltb_spec bytes_left 16); [left|right]; repeat split; lia.
Qed.

Lemma consider_committed (max : Z) (st st' : builder) (key value_json : pystr) :
  consider max st key value_json = Committed st' ->
  len value_json + len key + 5 < max - len (packet st) /\
  packet st' = packet st ++ (if first_field st then [] else lit ",") ++ member key value_json /\
  first_field st' = false.
Proof.
  intro H. destruct (consider_cases max st key value_json) as [[Hfit E]|[[_ [_ E]]|[_ [_ E]]]];
    rewrite E in H; try discriminate.
  injection H as <-. cbn. auto.
Qed.

(** A commit leaves room for the closing brace and the newline. *)
Lemma consider_room (max : Z) (st st' : builder) (key value_json : pystr) :
  consider max st key value_json = Committed st' ->
  len (packet st') + 2 <= max.
Proof.
  intro H. apply consider_committed in H as (Hfit & -> & _).
  rewrite !len_app, len_member.
  destruct (first_field st); [change (len []) with 0|change (len (lit ",")) with 1]; lia.
Qed.

Lemma run_room (max : Z) st g ms st' g' :
  run max st g ms st' g' -> len (packet st) + 2 <= max -> len (packet st') + 2 <= max.
Proof.
  induction 1; intro Hroom; auto.
  apply IHrun. eapply consider_room; eassumption.
Qed.

Lemma run_packet (max : Z) st g ms st' g' :
  run max st g ms st' g' ->
  packet st' = packet st ++ (if first_field st then join (lit ",") ms else commas ms) /\
  first_field st' = (first_field st && match ms with [] => true | _ => false end)%bool.
Proof.
  induction 1 as [st g|st key value rest vj st' ms st'' g'' Hd Hc Hrun IH
                 |st key value rest vj ms st'' g'' Hd Hc Hrun IH].
  - destruct (first_field st); cbn; rewrite List.app_nil_r; auto.
  - apply consider_committed in Hc as (_ & Hp & Hf).
    destruct IH as [IHp IHf]. rewrite Hf in IHp, IHf. rewrite IHp, Hp, IHf.
    split; [|now rewrite andb_false_r].
    destruct (first_field st).
    + rewrite join_cons. cbn [app]. now rewrite <- !List.app_assoc.
    + unfold commas. cbn [flat_map]. now rewrite <- !List.app_assoc.
  - assumption.
Qed.

Lemma run_trans (max : Z) st g ms st' g' ms' st'' g'' :
  run max st g ms st' g' -> run max st' g' ms' st'' g'' ->
  run max st g (ms ++ ms') st'' g''.
Proof.
  induction 1; intro H2; cbn [app]; eauto with elk.
Qed.

(** [build] returns exactly the states where [run] halts. *)
Lemma build_run (max : Z) (g : fieldgen) : forall st st',
  build max st g = Ok st' ->
  exists ms g', run max st g ms st' g' /\ halted max st' g'.
Proof.
  induction g as [|key value rest IH|e]; intros st st' H; cbn in H.
  - injection H as <-. exists [], Stop. split; [constructor|now left].
  - destruct (dumps value) as [vj|] eqn:Hd; cbn in H; [|discriminate].
    destruct (consider max st key vj) as [st1| |] eqn:Hc.
    + apply IH in H as (ms & g' & Hrun & Hh). eauto 6 with elk.
    + apply IH in H as (ms & g' & Hrun & Hh). eauto 6 with elk.
    + injection H as <-. exists [], (Yield key value rest).
      split; [constructor|]. right. eauto 8.
  - discriminate.
Qed.

Lemma run_build (max : Z) st g ms st' g' :
  run max st g ms st' g' -> halted max st' g' -> build max st g = Ok st'.
Proof.
  induction 1 as [st g| |]; intro Hh.
  - destruct Hh as [->|(key & value & rest & vj & -> & Hd & Hc)]; cbn; [reflexivity|].
    now rewrite Hd; cbn; rewrite Hc.
  - cbn. rewrite H. cbn. rewrite H0. auto.
  - cbn. rewrite H. cbn. rewrite H0. auto.
Qed.

(** * The commit rule *)



(** C5. When a field fails the commit test with [bytes_left < 16] the loop
    ends with the packet as it stands, whatever the rest of the generator
    is; with [bytes_left >= 16] only this field is passed over and the loop
    goes on with the next one. *)
Theorem C5_stop_or_skip (max : Z) (st : builder) (key : pystr) (value : pyval)
    (rest : fieldgen) (value_json : pystr) :
  dumps value = Ok value_json ->
  ~ len value_json + len key + 5 < max - len (packet st) ->
  (max - len (packet st) < 16 ->
     consider max st key value_json = Stopped /\
     build max st (Yield key value rest) = Ok st) /\
  (16 <= max - len (packet st) ->
     consider max st key value_json = Skipped /\
     build max st (Yield key value rest) = build max st rest).
Proof.
  intros Hd Hno.
  destruct (consider_cases max st key value_json) as [[Hfit E]|[[_ [Hlt E]]|[_ [Hge E]]]].
  - contradiction.
  - split; intro; [|lia]. split; [assumption|]. cbn. now rewrite Hd; cbn; rewrite E.
  - split; intro; [lia|]. split; [assumption|]. cbn. now rewrite Hd; cbn; rewrite E.
Qed.

Lemma C5_stop_or_skip_witness :
  (17 - len (packet start) < 16 ->
     consider 17 start (lit "@version") [QUOTE; 49%N; QUOTE] = Stopped /\
     build 17 start (Yield (lit "@version") (PStr (lit "1")) (Throw ValueError)) = Ok start) /\
  (16 <= 17 - len (packet start) ->
     consider 17 start (lit "@version") [QUOTE; 49%N; QUOTE] = Skipped /\
     build 17 start (Yield (lit "@version") (PStr (lit "1")) (Throw ValueError))
       = build 17 start (Throw ValueError)).
Proof.
  apply (C5_stop_or_skip 17 start (lit "@version") (PStr (lit "1")) (Throw ValueError)
           [QUOTE; 49%N; QUOTE]).
  - reflexivity.
  - cbv. intro H. discriminate H.
Defined.

(** * What [dumps] writes *)

Lemma bind_ok {A B : Type} (m : result A) (k : A -> result B) (b : B) :
  bind m k = Ok b -> exists a, m = Ok a /\ k a = Ok b.
Proof. destruct m as [a|e]; cbn; [eauto|discriminate]. Qed.

Lemma dumps_list (items : list pyval) :
  dumps (PList items) =
  (parts <- dumps_items items ;; Ok (lit "[" ++ join (lit ", ") parts ++ lit "]")).
Proof.
  reflexivity.
Qed.

Lemma dumps_tuple (items : list pyval) :
  dumps (PTuple items) =
  (parts <- dumps_items items ;; Ok (lit "[" ++ join (lit ", ") parts ++ lit "]")).
Proof.
  reflexivity.
Qed.

Lemma dumps_dict (items : list (pyval * pyval)) :
  dumps (PDict items) =
  (parts <- dumps_members items ;; Ok (lit "{" ++ join (lit ", ") parts ++ lit "}")).
Proof.
  reflexivity.
Qed.

Lemma dumps_subdict (items : list (pyval * pyval)) :
  dumps (PSubDict items) = dumps (PDict items).
Proof.
  reflexivity.
Qed.

Ltac ascii_lit := repeat (apply Forall_cons; [reflexivity|]); apply Forall_nil.

Lemma ascii_app (a b : pystr) : ascii_text a -> ascii_text b -> ascii_text (a ++ b).
Proof. intros. apply Forall_app. auto. Qed.

Ltac ascii_split :=
  repeat first [apply Forall_nil | apply Forall_cons; [reflexivity|] | apply ascii_app].

Lemma hex_digit_ascii (n : N) : (n < 16)%N -> (hex_digit n < 128)%N.
Proof. unfold hex_digit. destruct (N.ltb_spec n 10); lia. Qed.

Lemma u_escape_ascii (n : N) : ascii_text (u_escape n).
Proof.
  unfold u_escape, hex4, ascii_text.
  repeat (apply Forall_cons; [first [reflexivity|apply hex_digit_ascii, N.mod_lt; discriminate]|]).
  apply Forall_nil.
Qed.

Lemma escape_char_ascii (c : N) : ascii_text (escape_char c).
Proof.
  unfold escape_char.
  repeat match goal with
         | |- context [if N.eqb ?a ?b then _ else _] => destruct (N.eqb a b); [ascii_lit|]
         end.
  destruct ((32 <=? c) && (c <=? 126))%N eqn:E.
  - apply andb_prop in E as [_ E]. apply N.leb_le in E.
    apply Forall_cons; [lia|apply Forall_nil].
  - destruct (N.ltb c 65536); [apply u_escape_ascii|].
    apply ascii_app; apply u_escape_ascii.
Qed.

Lemma flat_escape_ascii (s : pystr) : ascii_text (flat_map escape_char s).
Proof.
  induction s as [|c s IH]; [apply Forall_nil|].
  cbn [flat_map]. apply ascii_app; [apply escape_char_ascii|exact IH].
Qed.

Lemma encode_basestring_ascii_ascii (s : pystr) : ascii_text (encode_basestring_ascii s).
Proof.
  unfold encode_basestring_ascii.
  apply Forall_cons; [reflexivity|]. apply ascii_app; [apply flat_escape_ascii|ascii_lit].
Qed.

Lemma uint_digits (u : uint) : Forall is_digit (lit (NilEmpty.string_of_uint u)).
Proof.
  induction u; cbn; constructor; try assumption; unfold is_digit; cbn; lia.
Qed.

Lemma digits_ascii (s : pystr) : Forall is_digit s -> ascii_text s.
Proof. apply Forall_impl. unfold is_digit. intros; lia. Qed.

Lemma nilzero_digits (u : uint) : Forall is_digit (lit (NilZero.string_of_uint u)).
Proof.
  destruct u; try apply (uint_digits (_ _)).
  cbn. constructor; [unfold is_digit; lia|constructor].
Qed.

Lemma str_of_N_digits (n : N) : Forall is_digit (str_of_N n).
Proof. apply nilzero_digits. Qed.

Lemma lit_cons (a : ascii) (s : string) : lit (String a s) = N_of_ascii a :: lit s.
Proof. reflexivity. Qed.

Lemma str_of_int_ascii (z : Z) : ascii_text (str_of_int z).
Proof.
  unfold str_of_int. destruct (Z.to_int z) as [u|u]; cbn [NilZero.string_of_int].
  - apply digits_ascii, nilzero_digits.
  - rewrite lit_cons. apply Forall_cons; [reflexivity|]. apply digits_ascii, nilzero_digits.
Qed.

Lemma floatstr_ascii (f : pyfloat) : ascii_text (floatstr f).
Proof.
  destruct f as [|[|]|negative i d e]; cbn [floatstr]; try ascii_lit.
  repeat apply ascii_app.
  - destruct negative; ascii_lit.
  - apply digits_ascii, str_of_N_digits.
  - destruct d; try (apply ascii_app; [ascii_lit|apply digits_ascii, (uint_digits (_ _))]).
    apply Forall_nil.
  - destruct e as [[negative' n]|]; [|apply Forall_nil].
    cbn [exponent_text]. repeat apply ascii_app; try ascii_lit.
    + destruct negative'; ascii_lit.
    + destruct (n <? 10)%N; ascii_lit.
    + apply digits_ascii, str_of_N_digits.
Qed.

Lemma join_ascii (sep : pystr) (parts : list pystr) :
  ascii_text sep -> Forall ascii_text parts -> ascii_text (join sep parts).
Proof.
  intros Hsep Hparts. destruct Hparts as [|p parts Hp Hparts]; [apply Forall_nil|].
  rewrite join_cons. apply ascii_app; [assumption|].
  induction Hparts; cbn [flat_map]; [apply Forall_nil|].
  repeat apply ascii_app; assumption.
Qed.

Lemma dict_key_ascii (k : pyval) (ks : pystr) :
  dict_key k = Ok ks -> ascii_text (encode_basestring_ascii ks).
Proof. intros _. apply encode_basestring_ascii_ascii. Qed.

(** With [ensure_ascii] left on, the JSON text of a value is ASCII. *)
Lemma dumps_ascii (v : pyval) : forall s, dumps v = Ok s -> ascii_text s.
Proof.
  assert (Hitems : forall items,
             Forall (fun v => forall s, dumps v = Ok s -> ascii_text s) items ->
             forall parts, dumps_items items = Ok parts -> Forall ascii_text parts).
  { induction 1 as [|x r Hx _ IH]; cbn [dumps_items]; intros parts H.
    - injection H as <-. constructor.
    - apply bind_ok in H as (s & Hs & H). apply bind_ok in H as (ss & Hss & H).
      injection H as <-. constructor; auto. }
  induction v as [|b|z|f|s|items IHv|items IHv|items IHv|items IHv|s] using pyval_ind;
    intros out H; try rewrite dumps_subdict in H.
  - injection H as <-. ascii_lit.
  - destruct b; injection H as <-; ascii_lit.
  - injection H as <-. apply str_of_int_ascii.
  - injection H as <-. apply floatstr_ascii.
  - injection H as <-. apply encode_basestring_ascii_ascii.
  - rewrite dumps_list in H. apply bind_ok in H as (parts & Hp & H). injection H as <-.
    ascii_split. apply join_ascii; [ascii_lit|eauto].
  - rewrite dumps_tuple in H. apply bind_ok in H as (parts & Hp & H). injection H as <-.
    ascii_split. apply join_ascii; [ascii_lit|eauto].
  - rewrite dumps_dict in H. apply bind_ok in H as (parts & Hp & H). injection H as <-.
    ascii_split. apply join_ascii; [ascii_lit|].
    revert parts Hp.
    induction IHv as [|[k x] r [_ Hx] _ IH]; cbn [dumps_members]; intros parts H.
    + injection H as <-. constructor.
    + apply bind_ok in H as (ks & Hks & H). apply bind_ok in H as (t & Ht & H).
      apply bind_ok in H as (ss & Hss & H). injection H as <-.
      constructor; [|auto].
      ascii_split; [apply flat_escape_ascii|apply (Hx _ Ht)].
  - rewrite dumps_dict in H. apply bind_ok in H as (parts & Hp & H). injection H as <-.
    ascii_split. apply join_ascii; [ascii_lit|].
    revert parts Hp.
    induction IHv as [|[k x] r [_ Hx] _ IH]; cbn [dumps_members]; intros parts H.
    + injection H as <-. constructor.
    + apply bind_ok in H as (ks & Hks & H). apply bind_ok in H as (t & Ht & H).
      apply bind_ok in H as (ss & Hss & H). injection H as <-.
      constructor; [|auto].
      ascii_split; [apply flat_escape_ascii|apply (Hx _ Ht)].
  - injection H as <-. apply encode_basestring_ascii_ascii.
Qed.

Lemma encode_ascii (s : pystr) :
  ascii_text s -> exists data, encode s = Ok data /\ Z.of_nat (List.length data) = len s.
Proof.
  induction 1 as [|c s Hc _ (data & Hdata & Hlen)]; [exists []; auto|].
  cbn [encode]. unfold utf8_char. apply N.ltb_lt in Hc. rewrite Hc. cbn [bind].
  rewrite Hdata. cbn [bind]. eexists; split; [reflexivity|].
  rewrite len_cons. change ([byte_of_N c] ++ data) with (byte_of_N c :: data).
  cbn [List.length]. lia.
Qed.

(** * Keys of the generated fields *)

Ltac gen_step :=
  match goal with
  | |- gen_all _ (attempt ?m _) => destruct m; cbn [attempt]
  | |- gen_all _ (Yield _ _ _) => apply all_yield
  | |- gen_all _ (Throw _) => apply all_throw
  | |- gen_all _ Stop => apply all_stop
  | |- gen_all _ (if ?b then _ else _) => destruct b
  | |- gen_all _ (match ?v with PNone => _ | _ => _ end) => destruct v
  end.

Ltac split_forall :=
  repeat match goal with
         | H : Forall _ (_ :: _) |- _ => apply Forall_cons_iff in H; destruct H
         end.

Lemma extras_keys (Q : pystr -> Prop) (items : attrs) :
  Forall (fun kv => Q (lit "_" ++ fst kv)) items ->
  gen_all (fun key _ => Q key) (extras items).
Proof.
  induction 1 as [|[key value] rest Hkey _ IH]; cbn [extras]; repeat gen_step; auto.
Qed.

Lemma generate_fields_keys (Q : pystr -> Prop) sys self record :
  Forall Q mandatory_keys -> Forall Q debugging_keys ->
  Forall (fun kv => Q (lit "_" ++ fst kv)) record ->
  gen_all (fun key _ => Q key) (_generate_fields sys self record).
Proof.
  unfold mandatory_keys, debugging_keys. intros Hm Hd Hextra. split_forall.
  assert (gen_all (fun key _ => Q key) (extra_part self record))
    by (unfold extra_part; destruct (extra_fields self); [now apply extras_keys|constructor]).
  unfold _generate_fields, debugging_part.
  repeat (gen_step; try assumption).
Qed.

Lemma generate_fields_ascii sys self record :
  Forall (fun kv => ascii_text (fst kv)) record ->
  gen_all (fun key _ => ascii_text key) (_generate_fields sys self record).
Proof.
  intro H. apply generate_fields_keys.
  - repeat (apply Forall_cons; [ascii_lit|]). apply Forall_nil.
  - repeat (apply Forall_cons; [ascii_lit|]). apply Forall_nil.
  - revert H. apply Forall_impl. intros kv Hkv.
    apply Forall_cons; [reflexivity|exact Hkv].
Qed.

Lemma member_ascii (key value_json : pystr) :
  ascii_text key -> ascii_text value_json -> ascii_text (member key value_json).
Proof.
  intros Hk Hv. unfold member.
  apply Forall_cons; [reflexivity|]. apply ascii_app; [assumption|].
  apply Forall_cons; [reflexivity|]. apply Forall_cons; [reflexivity|]. assumption.
Qed.

Lemma run_ascii (max : Z) st g ms st' g' :
  run max st g ms st' g' ->
  gen_all (fun key _ => ascii_text key) g ->
  ascii_text (packet st) -> ascii_text (packet st').
Proof.
  induction 1 as [st g|st key value rest vj st' ms st'' g'' Hd Hc Hrun IH
                 |st key value rest vj ms st'' g'' Hd Hc Hrun IH];
    intros Hg Hp; [assumption| |]; inversion Hg; subst.
  - apply IH; [assumption|].
    apply consider_committed in Hc as (_ & -> & _).
    apply ascii_app; [assumption|]. apply ascii_app.
    + destruct (first_field st); ascii_lit.
    + apply member_ascii; [assumption|eapply dumps_ascii; eassumption].
  - apply IH; assumption.
Qed.

(** * The budget *)

(** C1, as amended. With [max_packet_size >= 3] the packet never has more
    than [max_packet_size] characters at any point of the construction
    (two are always left for the closing brace and the newline), and
    neither has the finished text; when the attribute names of the record
    are ASCII these are byte counts, and the datagram sent has at most
    [max_packet_size] bytes. *)
Theorem C1_within_budget (sys : platform) (self : BulkUdp) (record : LogRecord) :
  3 <= max_packet_size self ->
  (forall ms st g',
     run (max_packet_size self) start (_generate_fields sys self record) ms st g' ->
     len (packet st) + 2 <= max_packet_size self) /\
  (forall p, emit_packet sys self record = Ok p -> len p <= max_packet_size self) /\
  (Forall (fun kv => ascii_text (fst kv)) record ->
   (forall ms st g',
      run (max_packet_size self) start (_generate_fields sys self record) ms st g' ->
      exists data, encode (packet st) = Ok data /\
                   Z.of_nat (List.length data) + 2 <= max_packet_size self) /\
   (forall p, emit_packet sys self record = Ok p ->
      exists data, emit sys self record = Sent data) /\
   (forall data, emit sys self record = Sent data ->
      Z.of_nat (List.length data) <= max_packet_size self)).
Proof.
  intro Hmax.
  assert (Hpoints : forall ms st g',
             run (max_packet_size self) start (_generate_fields sys self record) ms st g' ->
             len (packet st) + 2 <= max_packet_size self).
  { intros ms st g' Hrun. apply (run_room _ _ _ _ _ _ Hrun). cbn. lia. }
  assert (Hfinal : forall p, emit_packet sys self record = Ok p ->
             exists ms st g',
               run (max_packet_size self) start (_generate_fields sys self record) ms st g' /\
               p = finish st).
  { intros p H. unfold emit_packet in H. apply bind_ok in H as (st & Hb & H).
    injection H as <-. apply build_run in Hb as (ms & g' & Hrun & _). eauto. }
  assert (Hlen : forall p, emit_packet sys self record = Ok p -> len p <= max_packet_size self).
  { intros p H. apply Hfinal in H as (ms & st & g' & Hrun & ->).
    apply Hpoints in Hrun. unfold finish. rewrite !len_app.
    change (len (lit "}")) with 1. change (len [NEWLINE]) with 1. lia. }
  split; [exact Hpoints|]. split; [exact Hlen|].
  intro Hnames.
  assert (Hascii : forall ms st g',
             run (max_packet_size self) start (_generate_fields sys self record) ms st g' ->
             ascii_text (packet st)).
  { intros ms st g' Hrun. apply (run_ascii _ _ _ _ _ _ Hrun).
    - now apply generate_fields_ascii.
    - ascii_lit. }
  assert (Hsent : forall p, emit_packet sys self record = Ok p ->
             exists data, encode p = Ok data /\ Z.of_nat (List.length data) = len p).
  { intros p H. apply Hfinal in H as (ms & st & g' & Hrun & ->).
    apply encode_ascii. unfold finish. apply ascii_app; [eauto|ascii_lit]. }
  split; [|split].
  - intros ms st g' Hrun.
    destruct (encode_ascii (packet st) (Hascii _ _ _ Hrun)) as (data & Hdata & Hl).
    exists data. split; [assumption|]. rewrite Hl. eauto.
  - intros p H. destruct (Hsent p H) as (data & Hdata & _).
    exists data. unfold emit. rewrite H. cbn [bind]. now rewrite Hdata.
  - intros data H. unfold emit in H.
    destruct (emit_packet sys self record) as [p|e] eqn:Hp; cbn [bind] in H; [|discriminate].
    destruct (Hsent p eq_refl) as (data' & Hdata & Hl). rewrite Hdata in H.
    injection H as <-. rewrite Hl. auto.
Qed.

(** * The field generator *)



Lemma yielded_extras (items : attrs) :
  yielded (extras items) = extra_fields_of items /\ returns (extras items).
Proof.
  unfold extra_fields_of.
  induction items as [|[key value] rest [IHy IHr]]; [now split|].
  cbn [extras filter fst]. destruct (is_extra key); cbn [yielded returns map]; [|now split].
  split; [|assumption]. now rewrite IHy.
Qed.

Ltac returns_step :=
  match goal with
  | H : returns (attempt ?m _) |- _ =>
      let E := fresh "E" in
      destruct m eqn:E; cbn [attempt returns] in H |- *; [|contradiction]
  | H : returns (Yield _ _ _) |- _ => cbn [returns] in H
  | H : returns (Throw _) |- _ => contradiction
  end.

Lemma yielded_debugging_part self record (k : fieldgen) :
  returns (debugging_part self record k) ->
  exists dbg,
    yielded (debugging_part self record k) = dbg ++ yielded k /\
    incl (map fst dbg) debugging_keys /\
    (debugging_fields self = false -> dbg = []) /\
    returns k.
Proof.
  unfold debugging_part. intro H.
  destruct (debugging_fields self).
  - repeat returns_step.
    destruct (getattr_default record (lit "processName") PNone) eqn:Epn;
      cbn [returns] in H; cbn [attempt yielded];
      first [ exists [(lit "file", a); (lit "line", a0); (lit "_function", a1);
                      (lit "_pid", a2); (lit "_thread_name", a3)];
              split; [reflexivity|]
            | eexists [(lit "file", a); (lit "line", a0); (lit "_function", a1);
                       (lit "_pid", a2); (lit "_thread_name", a3); (lit "_process_name", _)];
              split; [reflexivity|] ];
      (split; [|split; [discriminate|assumption]]);
      unfold debugging_keys; intros x Hx; cbn in Hx |- *; tauto.
  - exists []. repeat split; auto. intros x [].
Qed.

(** When the generator runs to its end it has yielded the nine mandatory
    fields in order, then debugging fields, then the extra fields. *)
Lemma generate_fields_returns sys self record :
  returns (_generate_fields sys self record) ->
  exists mand dbg,
    yielded (_generate_fields sys self record)
      = mand ++ dbg ++ yielded (extra_part self record) /\
    map fst mand = mandatory_keys /\
    incl (map fst dbg) debugging_keys /\
    (debugging_fields self = false -> dbg = []).
Proof.
  unfold _generate_fields. intro H. repeat returns_step.
  apply yielded_debugging_part in H as (dbg & Hy & Hincl & Hoff & _).
  cbn [attempt yielded]. rewrite Hy.
  eexists [_; _; _; _; _; _; _; _; _], dbg.
  split; [reflexivity|]. split; [reflexivity|]. auto.
Qed.

Lemma logsource_resolution sys self :
  (fqdn self = true -> logsource sys self = Ok (PStr (getfqdn sys))) /\
  (fqdn self = false -> localname_truthy self = false ->
   logsource sys self = Ok (PStr (gethostname sys))).
Proof.
  unfold logsource. split.
  - now intros ->.
  - now intros -> ->.
Qed.

(** C3 (where the code departs from the claim). With [fqdn] off and a
    non-empty [localname] configured, line 109 reads [socket.localname],
    which raises [AttributeError]: the generator stops there and never
    yields a [logsource] field, instead of yielding the configured
    [localname]. *)
Theorem C3_localname_raises sys self record :
  fqdn self = false -> localname_truthy self = true ->
  logsource sys self = Raise AttributeError /\
  ~ returns (_generate_fields sys self record) /\
  forall value, ~ In (lit "logsource", value) (yielded (_generate_fields sys self record)).
Proof.
  intros Hf Hl.
  assert (E : logsource sys self = Raise AttributeError)
    by (unfold logsource; now rewrite Hf, Hl).
  split; [exact E|].
  unfold _generate_fields. rewrite E.
  destruct (fields_and_message sys record) as [fm|e]; cbn [attempt returns yielded].
  - split; [tauto|]. intros value [H|[H|[H|[]]]]; discriminate H.
  - split; [tauto|]. intros value [H|[]]; discriminate H.
Qed.

Lemma C3_localname_raises_witness :
  logsource Sample.sys Sample.named_handler = Raise AttributeError /\
  ~ returns (_generate_fields Sample.sys Sample.named_handler (Sample.record [])) /\
  forall value,
    ~ In (lit "logsource", value)
        (yielded (_generate_fields Sample.sys Sample.named_handler (Sample.record []))).
Proof.
  apply (C3_localname_raises Sample.sys Sample.named_handler (Sample.record []));
    reflexivity.
Defined.

(** When the generator runs to its end, the nine mandatory fields come
    first and in order, and with [debugging_fields] and [extra_fields] off
    nothing follows them. *)
Lemma mandatory_fields_first sys self record :
  returns (_generate_fields sys self record) ->
  exists mand more,
    yielded (_generate_fields sys self record) = mand ++ more /\
    map fst mand = mandatory_keys /\
    (debugging_fields self = false -> extra_fields self = false -> more = []).
Proof.
  intro H. apply generate_fields_returns in H as (mand & dbg & Hy & Hm & _ & Hoff).
  exists mand, (dbg ++ yielded (extra_part self record)).
  split; [assumption|]. split; [assumption|].
  intros Hd He. rewrite (Hoff Hd). unfold extra_part. now rewrite He.
Qed.

(** C6 (where the code departs from the claim). With [fqdn] off and a
    non-empty [localname] configured the generator yields [@version], and
    at most [@fields] and [message] after it, and then raises: the other
    six mandatory fields are never yielded. *)
Theorem C6_localname_cuts_mandatory sys self record :
  fqdn self = false -> localname_truthy self = true ->
  ~ returns (_generate_fields sys self record) /\
  (map fst (yielded (_generate_fields sys self record)) = [lit "@version"] \/
   map fst (yielded (_generate_fields sys self record))
     = [lit "@version"; lit "@fields"; lit "message"]).
Proof.
  intros Hf Hl.
  assert (E : logsource sys self = Raise AttributeError)
    by (unfold logsource; now rewrite Hf, Hl).
  unfold _generate_fields. rewrite E.
  destruct (fields_and_message sys record) as [fm|e]; cbn [attempt returns yielded map fst];
    split; auto.
Qed.

Lemma C6_localname_cuts_mandatory_witness :
  ~ returns (_generate_fields Sample.sys Sample.named_handler (Sample.record [])) /\
  (map fst (yielded (_generate_fields Sample.sys Sample.named_handler (Sample.record [])))
     = [lit "@version"] \/
   map fst (yielded (_generate_fields Sample.sys Sample.named_handler (Sample.record [])))
     = [lit "@version"; lit "@fields"; lit "message"]).
Proof.
  apply (C6_localname_cuts_mandatory Sample.sys Sample.named_handler (Sample.record []));
    reflexivity.
Defined.






(** * Extra fields *)

Lemma extra_fields_of_in (record : LogRecord) (key : pystr) (value : pyval) :
  In (key, value) (extra_fields_of record) <->
  exists name, key = lit "_" ++ name /\ is_extra name = true /\ In (name, value) record.
Proof.
  unfold extra_fields_of. rewrite in_map_iff. split.
  - intros ([name v] & Heq & Hin). apply filter_In in Hin as [Hin Hx].
    injection Heq as <- <-. exists name. auto.
  - intros (name & -> & Hx & Hin). exists (name, value). split; [reflexivity|].
    apply filter_In. auto.
Qed.

Lemma extra_keys (record : LogRecord) (key : pystr) :
  In key (map fst (extra_fields_of record)) ->
  exists name, key = lit "_" ++ name /\ is_extra name = true /\ In name (map fst record).
Proof.
  intro H. apply in_map_iff in H as ([k v] & <- & Hin).
  apply extra_fields_of_in in Hin as (name & -> & Hx & Hin).
  exists name. repeat split; auto.
  change name with (fst (name, v)). now apply in_map.
Qed.

Lemma is_extra_no_underscore (name rest : pystr) :
  is_extra name = true -> name <> lit "_" ++ rest.
Proof.
  unfold is_extra. intros H ->. apply andb_prop in H as [_ H]. discriminate H.
Qed.

Lemma extra_keys_nodup (record : LogRecord) :
  NoDup (map fst record) -> NoDup (map fst (extra_fields_of record)).
Proof.
  unfold extra_fields_of.
  induction record as [|[key value] rest IH]; intro Hnd; [constructor|].
  cbn [map fst] in Hnd. apply NoDup_cons_iff in Hnd as [Hkey Hnd].
  cbn [filter fst]. destruct (is_extra key); [|auto].
  cbn [map prefixed fst]. constructor; [|auto].
  intro Hin. apply (extra_keys rest) in Hin as (name & Heq & _ & Hin).
  injection Heq as <-. contradiction.
Qed.

Lemma mandatory_keys_nodup : NoDup mandatory_keys.
Proof.
  unfold mandatory_keys.
  repeat (apply NoDup_cons; [cbn; intuition discriminate|]). apply NoDup_nil.
Qed.

Lemma mandatory_keys_no_underscore (rest : pystr) : ~ In (lit "_" ++ rest) mandatory_keys.
Proof. unfold mandatory_keys. cbn. intuition discriminate. Qed.

(** C8, as amended. With [extra_fields] on and the generator running to
    its end, the fields after the mandatory and the debugging ones are the
    attributes of the record that pass the test of line 134, in the order
    of [record.__dict__], each under its name prefixed by ['_'] and with
    its own value, and no others; among them no key repeats and none is a
    bare attribute name. With [debugging_fields] off no key repeats in the
    whole sequence. *)
Theorem C8_extra_fields sys self record :
  extra_fields self = true ->
  returns (_generate_fields sys self record) ->
  exists mand dbg,
    yielded (_generate_fields sys self record) = mand ++ dbg ++ extra_fields_of record /\
    map fst mand = mandatory_keys /\
    incl (map fst dbg) debugging_keys /\
    (debugging_fields self = false -> dbg = []) /\
    (forall key value, In (key, value) record -> is_extra key = true ->
       In (lit "_" ++ key, value) (extra_fields_of record)) /\
    (forall key value, In (key, value) (extra_fields_of record) ->
       exists name, key = lit "_" ++ name /\ is_extra name = true /\ In (name, value) record) /\
    (NoDup (map fst record) -> NoDup (map fst (extra_fields_of record))) /\
    (forall name, is_extra name = true -> ~ In name (map fst (extra_fields_of record))) /\
    (debugging_fields self = false -> NoDup (map fst record) ->
       NoDup (map fst (yielded (_generate_fields sys self record)))).
Proof.
  intros He Hret.
  destruct (generate_fields_returns sys self record Hret) as (mand & dbg & Hy & Hm & Hd & Hoff).
  unfold extra_part in Hy. rewrite He in Hy.
  rewrite (proj1 (yielded_extras record)) in Hy.
  exists mand, dbg. repeat split; try assumption.
  - intros key value Hin Hx. apply extra_fields_of_in. eauto.
  - intros key value Hin. now apply extra_fields_of_in.
  - apply extra_keys_nodup.
  - intros name Hx Hin. apply extra_keys in Hin as (rest & Heq & _).
    now apply (is_extra_no_underscore name rest).
  - intros Hdbg Hnd. rewrite Hy, (Hoff Hdbg). cbn [app]. rewrite map_app, Hm.
    apply NoDup_app.
    + apply mandatory_keys_nodup.
    + now apply extra_keys_nodup.
    + intros key Hkey Hin. apply extra_keys in Hin as (rest & -> & _).
      now apply (mandatory_keys_no_underscore rest).
Qed.

Lemma C8_extra_fields_witness :
  exists mand dbg,
    yielded (_generate_fields Sample.sys (Sample.handler 65536 false true)
               (Sample.record [(lit "user_id", PInt 42)]))
      = mand ++ dbg ++ [(lit "_stack_info", PNone); (lit "_user_id", PInt 42)] /\
    map fst mand = mandatory_keys.
Proof.
  destruct (C8_extra_fields Sample.sys (Sample.handler 65536 false true)
              (Sample.record [(lit "user_id", PInt 42)]))
    as (mand & dbg & Hy & Hm & _).
  - reflexivity.
  - cbn. exact I.
  - exists mand, dbg. split; [exact Hy|exact Hm].
Defined.

(** C8 as stated fails: an extra attribute named [level] is yielded as
    [_level], and a field with the bare key [level] is in the sequence all
    the same, the mandatory one. *)
Lemma C8_counterexample :
  ~ (forall key value,
       In (key, value) (Sample.record [(lit "level", PStr (lit "debug"))]) ->
       is_extra key = true ->
       ~ In key (map fst (yielded (_generate_fields Sample.sys
                                     (Sample.handler 65536 false true)
                                     (Sample.record [(lit "level", PStr (lit "debug"))]))))).
Proof.
  intro H. apply (H (lit "level") (PStr (lit "debug"))).
  - apply in_or_app. right. left. reflexivity.
  - reflexivity.
  - cbn. tauto.
Qed.

(** * Serialization *)












(** C10. With [debugging_fields] and [extra_fields] both on, a record that
    carries an extra attribute [pid] makes the generator yield the key
    [_pid] twice, as a debugging field and as an extra field, and the
    packet holds two members with that key. *)
Theorem C10_duplicate_keys :
  exists sys self record,
    debugging_fields self = true /\ extra_fields self = true /\
    returns (_generate_fields sys self record) /\
    (exists mand dbg,
       yielded (_generate_fields sys self record) = mand ++ dbg ++ extra_fields_of record /\
       map fst mand = mandatory_keys /\
       In (lit "_pid", PInt 4711) dbg /\
       In (lit "_pid", PInt 1) (extra_fields_of record)) /\
    (exists p,
       emit_packet sys self record = Ok p /\
       occurrences (member (lit "_pid") (lit "4711")) p = 1%nat /\
       occurrences (member (lit "_pid") (lit "1")) p = 1%nat /\
       occurrences ([QUOTE] ++ lit "_pid" ++ [QUOTE] ++ lit ":") p = 2%nat).
Proof.
  exists Sample.sys, (Sample.handler 65536 true true),
    (Sample.record [(lit "pid", PInt 1)]).
  split; [reflexivity|]. split; [reflexivity|]. split; [cbn; exact I|]. split.
  - exists (firstn 9 (yielded (_generate_fields Sample.sys (Sample.handler 65536 true true)
                                 (Sample.record [(lit "pid", PInt 1)])))),
      (firstn 6 (skipn 9 (yielded (_generate_fields Sample.sys
                                     (Sample.handler 65536 true true)
                                     (Sample.record [(lit "pid", PInt 1)]))))).
    split; [reflexivity|]. split; [reflexivity|]. split.
    + cbn. tauto.
    + cbn. tauto.
  - eexists. split; [vm_compute; reflexivity|]. split; [|split]; vm_compute; reflexivity.
Qed.

Lemma C1_within_budget_witness :
  3 <= 80 /\
  exists data,
    emit Sample.sys (Sample.handler 80 true true) (Sample.record [(lit "user_id", PInt 42)])
      = Sent data /\
    Z.of_nat (List.length data) <= 80.
Proof.
  split; [lia|].
  destruct (C1_within_budget Sample.sys (Sample.handler 80 true true)
              (Sample.record [(lit "user_id", PInt 42)])) as (_ & _ & H).
  - cbn. lia.
  - destruct H as (_ & Hsent & Hbound).
    + repeat (apply Forall_cons; [ascii_lit|]). apply Forall_nil.
    + edestruct Hsent as [data Hdata]; [vm_compute; reflexivity|].
      exists data. split; [exact Hdata|]. apply Hbound. exact Hdata.
Defined.

(** C1 as stated fails: with [max_packet_size = 2] every field is dropped
    and the three bytes of the empty object and the newline are sent. *)
Lemma C1_counterexample :
  ~ (forall data,
       emit Sample.sys (Sample.handler 2 false true) (Sample.record []) = Sent data ->
       Z.of_nat (List.length data) <= max_packet_size (Sample.handler 2 false true)).
Proof.
  intro H. specialize (H [Byte.x7b; Byte.x7d; Byte.x0a] eq_refl).
  cbn in H. lia.
Qed.

(** * The texts [dumps] writes are JSON *)

Lemma json_chars_app (a b : pystr) : json_chars a -> json_chars b -> json_chars (a ++ b).
Proof.
  induction 1; intro Hb; cbn [app]; [assumption| | |].
  - apply chars_plain; auto.
  - apply chars_escape; auto.
  - apply chars_unicode; auto.
Qed.

Lemma hex_digit_hex (n : N) : (n < 16)%N -> is_hex (hex_digit n).
Proof. unfold hex_digit, is_hex. destruct (N.ltb_spec n 10); lia. Qed.

Lemma u_escape_chars (n : N) : json_chars (u_escape n).
Proof.
  unfold u_escape, hex4.
  apply chars_unicode; try (apply hex_digit_hex, N.mod_lt; discriminate).
  apply chars_nil.
Qed.

Lemma escape_char_chars (c : N) : json_chars (escape_char c).
Proof.
  unfold escape_char.
  repeat match goal with
         | |- context [if N.eqb ?a ?b then _ else _] =>
             destruct (N.eqb_spec a b);
             [apply chars_escape; [cbn; tauto|apply chars_nil]|]
         end.
  destruct ((32 <=? c) && (c <=? 126))%N eqn:E.
  - apply andb_prop in E as [E _]. apply N.leb_le in E.
    apply chars_plain; [assumption|unfold QUOTE; lia|unfold BACKSLASH; lia|apply chars_nil].
  - destruct (N.ltb c 65536); [apply u_escape_chars|].
    apply json_chars_app; apply u_escape_chars.
Qed.

Lemma flat_escape_chars (s : pystr) : json_chars (flat_map escape_char s).
Proof.
  induction s as [|c s IH]; [apply chars_nil|].
  cbn [flat_map]. apply json_chars_app; [apply escape_char_chars|exact IH].
Qed.

Lemma encode_basestring_ascii_json (s : pystr) : json_value (encode_basestring_ascii s).
Proof. apply value_string, flat_escape_chars. Qed.

Lemma pos_to_uint_normal (p : positive) : unorm (Pos.to_uint p) = Pos.to_uint p.
Proof.
  rewrite <- DecimalPos.Unsigned.to_of, DecimalPos.Unsigned.of_to. reflexivity.
Qed.

Lemma normal_uint_int (u : uint) :
  unorm u = u -> json_int (lit (NilZero.string_of_uint u)).
Proof.
  intro Hn.
  destruct u; try (cbn [NilZero.string_of_uint NilEmpty.string_of_uint]; rewrite lit_cons;
                   apply int_digits; [cbn; lia|apply uint_digits]).
  - discriminate Hn.
  - unfold unorm in Hn. cbn [nzhead] in Hn.
    destruct (nzhead u) eqn:Hz; try discriminate Hn.
    + injection Hn as <-. apply int_zero.
    + now elim (DecimalFacts.nzhead_nonzero u u0).
Qed.

Lemma str_of_N_int (n : N) : json_int (str_of_N n).
Proof.
  unfold str_of_N. destruct n as [|p]; [apply int_zero|].
  apply normal_uint_int, pos_to_uint_normal.
Qed.

Lemma number_parts (minus i f e : pystr) :
  minus = [] \/ minus = [45%N] -> json_int i -> json_frac f -> json_exp e ->
  json_value (minus ++ i ++ f ++ e).
Proof. intros. now apply value_number, number_intro. Qed.

Lemma str_of_int_json (z : Z) : json_value (str_of_int z).
Proof.
  unfold str_of_int. destruct z as [|p|p]; cbn [Z.to_int NilZero.string_of_int].
  - apply value_number. apply (number_intro [] [48%N] [] []); auto; constructor.
  - rewrite <- (List.app_nil_r (lit _)).
    apply (number_parts [] _ [] []); auto; try constructor.
    apply normal_uint_int, pos_to_uint_normal.
  - rewrite lit_cons. rewrite <- (List.app_nil_r (lit _)).
    apply (number_parts [45%N] _ [] []); auto; try constructor.
    apply normal_uint_int, pos_to_uint_normal.
Qed.

Lemma nilempty_nonnil (u : uint) : u <> Nil -> lit (NilEmpty.string_of_uint u) <> [].
Proof. destruct u; [congruence|..]; intros _; discriminate. Qed.

Lemma frac_text_json (d : uint) : json_frac (frac_text d).
Proof.
  destruct d; try (apply frac_some; split; [discriminate|apply (uint_digits (_ _))]).
  apply frac_none.
Qed.

Lemma str_of_N_nonempty (n : N) : str_of_N n <> [].
Proof. destruct (str_of_N_int n); discriminate. Qed.

Lemma exponent_text_json (e : option (bool * N)) : json_exp (exponent_text e).
Proof.
  destruct e as [[negative n]|]; [|apply exp_none].
  cbn [exponent_text].
  change (lit "e" ++ (if negative then lit "-" else lit "+")
            ++ (if (n <? 10)%N then lit "0" else []) ++ str_of_N n)
    with (101%N :: (if negative then [45%N] else [43%N])
            ++ ((if (n <? 10)%N then [48%N] else []) ++ str_of_N n)).
  apply exp_some; [auto|destruct negative; auto|].
  split.
  - destruct (n <? 10)%N; [discriminate|apply str_of_N_nonempty].
  - apply Forall_app. split; [|apply str_of_N_digits].
    destruct (n <? 10)%N; repeat constructor; unfold is_digit; lia.
Qed.

Lemma floatstr_json (f : pyfloat) :
  finite_floats (PFloat f) = true -> json_value (floatstr f).
Proof.
  destruct f as [|negative|negative i d e]; cbn [finite_floats]; try discriminate.
  intros _. cbn [floatstr]. apply number_parts.
  - destruct negative; auto.
  - apply str_of_N_int.
  - apply frac_text_json.
  - apply exponent_text_json.
Qed.

Lemma blank_space : blank (lit " ").
Proof. apply Forall_cons; [left; reflexivity|apply Forall_nil]. Qed.

Lemma blank_nil : blank [].
Proof. constructor. Qed.

#[local] Hint Resolve blank_nil blank_space : elk.

Lemma element_of_value (w v : pystr) : blank w -> json_value v -> json_element (w ++ v).
Proof.
  intros Hw Hv. rewrite <- (List.app_nil_r v). apply element_intro; auto with elk.
Qed.

(** [join] of values with [", "] between them is a list of elements. *)
Lemma join_elements (w p : pystr) (parts : list pystr) :
  blank w -> Forall json_value (p :: parts) ->
  json_elements (w ++ join (lit ", ") (p :: parts)).
Proof.
  intros Hw Hall. revert w p Hw Hall.
  induction parts as [|q parts IH]; intros w p Hw Hall;
    apply Forall_cons_iff in Hall as [Hp Hall].
  - apply elements_one. now apply element_of_value.
  - change (join (lit ", ") (p :: q :: parts))
      with (p ++ lit "," ++ (lit " " ++ join (lit ", ") (q :: parts))).
    rewrite List.app_assoc. apply elements_more.
    + now apply element_of_value.
    + apply IH; auto with elk.
Qed.

Lemma join_members (w p : pystr) (parts : list pystr) :
  blank w -> Forall (fun m => forall w', blank w' -> json_member (w' ++ m)) (p :: parts) ->
  json_members (w ++ join (lit ", ") (p :: parts)).
Proof.
  intros Hw Hall. revert w p Hw Hall.
  induction parts as [|q parts IH]; intros w p Hw Hall;
    apply Forall_cons_iff in Hall as [Hp Hall].
  - apply members_one. now apply Hp.
  - change (join (lit ", ") (p :: q :: parts))
      with (p ++ lit "," ++ (lit " " ++ join (lit ", ") (q :: parts))).
    rewrite List.app_assoc. apply members_more.
    + now apply Hp.
    + apply IH; auto with elk.
Qed.

Lemma array_of_parts (parts : list pystr) :
  Forall json_value parts ->
  json_value (lit "[" ++ join (lit ", ") parts ++ lit "]").
Proof.
  intro Hall. apply value_array. destruct parts as [|p parts].
  - apply (array_empty []). constructor.
  - apply array_elements. apply (join_elements [] p parts); auto with elk.
Qed.

Lemma object_of_parts (parts : list pystr) :
  Forall (fun m => forall w', blank w' -> json_member (w' ++ m)) parts ->
  json_value (lit "{" ++ join (lit ", ") parts ++ lit "}").
Proof.
  intro Hall. apply value_object. destruct parts as [|p parts].
  - apply (object_empty []). constructor.
  - apply object_members. apply (join_members [] p parts); auto with elk.
Qed.

(** The member [json.dumps] writes for a dict entry. *)
Lemma dict_member (ks s w : pystr) :
  json_value s -> blank w ->
  json_member (w ++ encode_basestring_ascii ks ++ lit ": " ++ s).
Proof.
  intros Hs Hw.
  change (w ++ encode_basestring_ascii ks ++ lit ": " ++ s)
    with (w ++ QUOTE :: (flat_map escape_char ks ++ [QUOTE]) ++ lit ":" ++ (lit " " ++ s)).
  rewrite <- List.app_assoc.
  apply (member_intro w (flat_map escape_char ks) [] (lit " " ++ s));
    auto with elk.
  - apply flat_escape_chars.
  - apply element_of_value; auto with elk.
Qed.

Lemma dumps_json (v : pyval) :
  forall s, finite_floats v = true -> dumps v = Ok s -> json_value s.
Proof.
  assert (Hitems : forall items,
             Forall (fun v => forall s, finite_floats v = true -> dumps v = Ok s -> json_value s)
               items ->
             forall parts, finite_items items = true -> dumps_items items = Ok parts ->
                           Forall json_value parts).
  { induction 1 as [|x r Hx _ IH]; cbn [dumps_items finite_items]; intros parts Hf H.
    - injection H as <-. constructor.
    - apply andb_prop in Hf as [Hfx Hfr].
      apply bind_ok in H as (s & Hs & H). apply bind_ok in H as (ss & Hss & H).
      injection H as <-. constructor; auto. }
  induction v as [|b|z|f|s|items IH|items IH|items IH|items IH|s] using pyval_ind;
    intros out Hf H; try rewrite dumps_subdict in H.
  - injection H as <-. apply value_null.
  - destruct b; injection H as <-; [apply value_true|apply value_false].
  - injection H as <-. apply str_of_int_json.
  - injection H as <-. now apply floatstr_json.
  - injection H as <-. apply encode_basestring_ascii_json.
  - rewrite dumps_list in H. apply bind_ok in H as (parts & Hp & H). injection H as <-.
    apply array_of_parts. eapply Hitems; eauto.
  - rewrite dumps_tuple in H. apply bind_ok in H as (parts & Hp & H). injection H as <-.
    apply array_of_parts. eapply Hitems; eauto.
  - rewrite dumps_dict in H. apply bind_ok in H as (parts & Hp & H). injection H as <-.
    apply object_of_parts.
    change (finite_floats (PDict items)) with (finite_members items) in Hf.
    revert parts Hf Hp.
    induction IH as [|[k x] r [_ Hx] _ IH]; cbn [dumps_members finite_members];
      intros parts Hf H.
    + injection H as <-. constructor.
    + apply andb_prop in Hf as [Hfx Hfr].
      apply bind_ok in H as (ks & Hks & H). apply bind_ok in H as (t & Ht & H).
      apply bind_ok in H as (ss & Hss & H). injection H as <-.
      constructor; [|auto].
      intros w' Hw'. apply dict_member; [apply (Hx t Hfx Ht)|assumption].
  - rewrite dumps_dict in H. apply bind_ok in H as (parts & Hp & H). injection H as <-.
    apply object_of_parts.
    change (finite_floats (PSubDict items)) with (finite_members items) in Hf.
    revert parts Hf Hp.
    induction IH as [|[k x] r [_ Hx] _ IH]; cbn [dumps_members finite_members];
      intros parts Hf H.
    + injection H as <-. constructor.
    + apply andb_prop in Hf as [Hfx Hfr].
      apply bind_ok in H as (ks & Hks & H). apply bind_ok in H as (t & Ht & H).
      apply bind_ok in H as (ss & Hss & H). injection H as <-.
      constructor; [|auto].
      intros w' Hw'. apply dict_member; [apply (Hx t Hfx Ht)|assumption].
  - injection H as <-. apply encode_basestring_ascii_json.
Qed.

(** * The packet is a JSON object *)

Lemma member_json (key value_json : pystr) :
  json_chars key -> json_value value_json -> json_member (member key value_json).
Proof.
  intros Hk Hv. unfold member.
  change ([QUOTE] ++ key ++ [QUOTE] ++ lit ":" ++ value_json)
    with ([] ++ QUOTE :: key ++ [QUOTE] ++ [] ++ lit ":" ++ value_json).
  apply member_intro; auto with elk.
  apply (element_of_value [] value_json); auto with elk.
Qed.

Lemma join_comma_members (m : pystr) (ms : list pystr) :
  Forall json_member (m :: ms) -> json_members (join (lit ",") (m :: ms)).
Proof.
  revert m. induction ms as [|m' ms IH]; intros m Hall;
    apply Forall_cons_iff in Hall as [Hm Hall].
  - now apply members_one.
  - change (join (lit ",") (m :: m' :: ms)) with (m ++ lit "," ++ join (lit ",") (m' :: ms)).
    apply members_more; auto.
Qed.

Lemma run_members (max : Z) st g ms st' g' :
  run max st g ms st' g' -> gen_all writable g -> Forall json_member ms.
Proof.
  induction 1 as [st g|st key value rest vj st' ms st'' g'' Hd Hc Hrun IH
                 |st key value rest vj ms st'' g'' Hd Hc Hrun IH];
    intro Hg; [constructor| |]; inversion Hg as [| |? ? ? [Hkey Hfin] Hrest]; subst; auto.
  constructor; auto. apply member_json; [assumption|]. eapply dumps_json; eassumption.
Qed.

Lemma tiny_budget (max : Z) (g : fieldgen) :
  max <= 16 -> build max start (Yield (lit "@version") (PStr (lit "1")) g) = Ok start.
Proof.
  intro Hmax. cbn [build dumps bind].
  destruct (consider_cases max start (lit "@version") (encode_basestring_ascii (lit "1")))
    as [[Hfit _]|[[_ [_ E]]|[_ [Hge _]]]].
  - cbn in Hfit. lia.
  - now rewrite E.
  - cbn in Hge. lia.
Qed.

(** C2, as amended. Whenever [emit] gets as far as sending, the text it
    sends begins with ['{'] and ends with ['}'] and a newline, whatever the
    budget; it is a syntactically valid JSON object when every generated
    key is a JSON string as it stands between the quotes and no value holds
    a NaN or an infinity. With [max_packet_size <= 16] [emit] always gets
    that far, and the text is the empty object and a newline. When the
    generator or the serialization of a value raises, nothing is sent. *)
Theorem C2_valid_document sys self record :
  (max_packet_size self <= 16 ->
     emit_packet sys self record = Ok (lit "{}" ++ [NEWLINE])) /\
  (forall e, emit_packet sys self record = Raise e ->
     emit sys self record = HandledError e) /\
  (forall p, emit_packet sys self record = Ok p ->
     (exists body, p = lit "{" ++ body ++ lit "}" ++ [NEWLINE]) /\
     (gen_all writable (_generate_fields sys self record) ->
        exists o, json_object o /\ p = o ++ [NEWLINE])) /\
  (forall data, emit sys self record = Sent data ->
     exists p, emit_packet sys self record = Ok p /\ encode p = Ok data).
Proof.
  split; [|split; [|split]].
  - intro Hmax. unfold emit_packet, _generate_fields.
    rewrite tiny_budget by assumption. reflexivity.
  - intros e H. unfold emit. now rewrite H.
  - intros p H. unfold emit_packet in H. apply bind_ok in H as (st & Hb & H).
    injection H as <-. apply build_run in Hb as (ms & g' & Hrun & _).
    destruct (run_packet _ _ _ _ _ _ Hrun) as [Hp _]. cbn [start packet first_field] in Hp.
    unfold finish. rewrite Hp. split.
    + exists (join (lit ",") ms). now rewrite <- !List.app_assoc.
    + intro Hg. apply (run_members _ _ _ _ _ _ Hrun) in Hg.
      exists (lit "{" ++ join (lit ",") ms ++ lit "}"). split.
      * destruct ms as [|m ms].
        -- apply (object_empty []). constructor.
        -- apply object_members. now apply join_comma_members.
      * now rewrite <- !List.app_assoc.
  - intros data H. unfold emit in H.
    destruct (emit_packet sys self record) as [p|e]; cbn [bind] in H; [|discriminate].
    exists p. split; [reflexivity|].
    destruct (encode p); [injection H as <-; reflexivity|discriminate].
Qed.

Ltac chars_lit :=
  repeat (apply chars_plain;
          [lia|unfold QUOTE; lia|unfold BACKSLASH; lia|]);
  apply chars_nil.

Lemma C2_valid_document_witness :
  exists o,
    json_object o /\
    emit_packet Sample.sys (Sample.handler 120 true true)
      (Sample.record [(lit "user_id", PInt 42)]) = Ok (o ++ [NEWLINE]).
Proof.
  destruct (C2_valid_document Sample.sys (Sample.handler 120 true true)
              (Sample.record [(lit "user_id", PInt 42)])) as (_ & _ & H & _).
  edestruct H as [_ Hvalid]; [vm_compute; reflexivity|].
  destruct Hvalid as (o & Ho & Heq).
  - cbv. repeat (apply all_yield; [split; [chars_lit|reflexivity]|]). apply all_stop.
  - exists o. split; [exact Ho|].
    rewrite <- Heq. vm_compute. reflexivity.
Defined.

(** C2 as stated fails: for [logger.info({(1, 2): "x"})] serialization
    raises and the builder produces no document at all. *)
Lemma C2_counterexample :
  ~ (exists p,
       emit_packet Sample.sys (Sample.handler 65536 false true)
         (Sample.standard (PDict [(PTuple [PInt 1; PInt 2], PStr (lit "x"))])) = Ok p).
Proof. intros [p H]. vm_compute in H. discriminate H. Qed.

(** * Evaluations *)

Example dumps_nested :
  dumps (PDict [(PStr (lit "message"), PStr (lit "hello")); (PStr (lit "code"), PInt 7)])
  = Ok (lit "{" ++ [QUOTE] ++ lit "message" ++ [QUOTE] ++ lit ": " ++ [QUOTE]
          ++ lit "hello" ++ [QUOTE] ++ lit ", " ++ [QUOTE] ++ lit "code" ++ [QUOTE]
          ++ lit ": 7}").
Proof. vm_compute. reflexivity. Qed.

Example dumps_escapes :
  dumps (PList [PStr [233%N; 10%N; 128512%N]; PFloat (FFinite true 2 (D5 Nil) (Some (true, 5%N)))])
  = Ok (lit "[" ++ [QUOTE; BACKSLASH] ++ lit "u00e9" ++ [BACKSLASH] ++ lit "n"
          ++ [BACKSLASH] ++ lit "ud83d" ++ [BACKSLASH] ++ lit "ude00" ++ [QUOTE]
          ++ lit ", -2.5e-05]").
Proof. vm_compute. reflexivity. Qed.

(** With a budget of 17 the first field is passed over ([bytes_left = 16])
    and the second still fits. *)
Example budget_17 :
  emit_packet Sample.sys (Sample.handler 17 false true) (Sample.record [])
  = Ok (lit "{" ++ member (lit "@fields") (lit "{}") ++ lit "}" ++ [NEWLINE]).
Proof. vm_compute. reflexivity. Qed.

Example budget_80 :
  emit_packet Sample.sys (Sample.handler 80 true true) (Sample.record [(lit "user_id", PInt 42)])
  = Ok (lit "{"
          ++ join (lit ",")
               [member (lit "@version") (encode_basestring_ascii (lit "1"));
                member (lit "@fields") (lit "{}");
                member (lit "message") (encode_basestring_ascii (lit "started"));
                member (lit "logsource") (encode_basestring_ascii (lit "web1"))]
          ++ lit "}" ++ [NEWLINE]).
Proof. vm_compute. reflexivity. Qed.

(** A configured [localname] ends every [emit] with room for four fields
    in [handleError]. *)
Example localname_handled :
  emit Sample.sys Sample.named_handler (Sample.record []) = HandledError AttributeError.
Proof. vm_compute. reflexivity. Qed.

(** [len] counts code points and the datagram is UTF-8: an attribute named
    U+00E9 makes a packet of 194 characters and 195 bytes under a budget of
    194. *)
Example non_ascii_name_overruns :
  exists p data,
    emit_packet Sample.sys (Sample.handler 194 false true) (Sample.record [([233%N], PInt 1)])
      = Ok p /\
    emit Sample.sys (Sample.handler 194 false true) (Sample.record [([233%N], PInt 1)])
      = Sent data /\
    len p = 194 /\ Z.of_nat (List.length data) = 195.
Proof.
  eexists. eexists. split; [vm_compute; reflexivity|].
  split; [vm_compute; reflexivity|]. split; vm_compute; reflexivity.
Qed.

(** Keys are written between quotes as they are: a quote in an attribute
    name ends the key early in the packet. *)
Example quote_in_name :
  exists before,
    emit_packet Sample.sys (Sample.handler 65536 false true)
      (Sample.record [(lit "a" ++ [QUOTE] ++ lit "b", PInt 1)])
    = Ok (before ++ lit "," ++ [QUOTE] ++ lit "_a" ++ [QUOTE] ++ lit "b" ++ [QUOTE]
            ++ lit ":1}" ++ [NEWLINE]).
Proof.
  exists (match emit_packet Sample.sys (Sample.handler 65536 false true)
                  (Sample.record [(lit "a" ++ [QUOTE] ++ lit "b", PInt 1)]) with
          | Ok p => firstn (List.length p - 11) p
          | Raise _ => []
          end).
  vm_compute. reflexivity.
Qed.

(** * Further properties of the builder *)

Lemma len_member_ge (key value_json : pystr) : 3 <= len (member key value_json).
Proof. rewrite len_member. pose proof (len_nonneg key). pose proof (len_nonneg value_json). lia. Qed.

Lemma run_fields (max : Z) st g ms st' g' :
  run max st g ms st' g' ->
  exists fields, subseq fields (yielded g) /\ Forall2 written fields ms.
Proof.
  induction 1 as [st g|st key value rest vj st' ms st'' g'' Hd Hc Hrun (fields & Hsub & Hw)
                 |st key value rest vj ms st'' g'' Hd Hc Hrun (fields & Hsub & Hw)].
  - exists []. split; constructor.
  - exists ((key, value) :: fields). split; [now apply subseq_take|].
    constructor; [|assumption]. exists vj. auto.
  - exists fields. split; [now apply subseq_skip|assumption].
Qed.

(** X1. The packet only grows: at every later point of the construction
    the earlier packet is a prefix of the later one, and [first_field] is
    on exactly while the packet is still the opening brace. *)
Theorem X1_append_only (max : Z) (g : fieldgen) ms1 st1 g1 ms2 st2 g2 :
  run max start g ms1 st1 g1 ->
  run max st1 g1 ms2 st2 g2 ->
  (exists suffix, packet st2 = packet st1 ++ suffix) /\
  (first_field st1 = true <-> packet st1 = lit "{") /\
  (first_field st2 = true -> first_field st1 = true).
Proof.
  intros H1 H2.
  destruct (run_packet _ _ _ _ _ _ H1) as [Hp1 Hf1].
  destruct (run_packet _ _ _ _ _ _ H2) as [Hp2 Hf2].
  cbn [start packet first_field andb] in Hp1, Hf1.
  split; [eauto|]. split.
  - rewrite Hf1, Hp1. destruct ms1 as [|m ms1]; [split; reflexivity|].
    split; [discriminate|]. intro H. exfalso.
    apply (f_equal len) in H. rewrite join_cons, !len_app in H.
    assert (Hm : 3 <= len m).
    { apply run_fields in H1 as (fields & _ & Hw). inversion Hw as [|kv m' ? ? Hkv]; subst.
      destruct Hkv as (vj & _ & ->). apply len_member_ge. }
    pose proof (len_nonneg (flat_map (fun x => lit "," ++ x) ms1)).
    change (len (lit "{")) with 1 in H. lia.
  - rewrite Hf2. intro H. now apply andb_prop in H.
Qed.

Lemma X1_append_only_witness :
  exists suffix,
    packet {| packet := lit "{" ++ member (lit "@version") [QUOTE; 49%N; QUOTE];
              first_field := false |}
    = packet start ++ suffix.
Proof.
  destruct (X1_append_only 65536
              (Yield (lit "@version") (PStr (lit "1")) Stop)
              [] start (Yield (lit "@version") (PStr (lit "1")) Stop)
              [member (lit "@version") [QUOTE; 49%N; QUOTE]]
              {| packet := lit "{" ++ member (lit "@version") [QUOTE; 49%N; QUOTE];
                 first_field := false |}
              Stop) as [H _].
  - apply run_here.
  - eapply run_commit; [reflexivity|reflexivity|apply run_here].
  - exact H.
Defined.

(** X2. The text [emit] hands to [encode] is the opening brace, members
    separated by commas, the closing brace and a newline, where the members
    are those of a subsequence of the generated fields: fields are written
    in the order of the generator, each as its key between quotes, a colon
    and the JSON text of its value. *)
Theorem X2_members_in_order sys self record (p : pystr) :
  emit_packet sys self record = Ok p ->
  exists fields ms,
    subseq fields (yielded (_generate_fields sys self record)) /\
    Forall2 written fields ms /\
    p = lit "{" ++ join (lit ",") ms ++ lit "}" ++ [NEWLINE].
Proof.
  intro H. unfold emit_packet in H. apply bind_ok in H as (st & Hb & H).
  injection H as <-. apply build_run in Hb as (ms & g' & Hrun & _).
  destruct (run_fields _ _ _ _ _ _ Hrun) as (fields & Hsub & Hw).
  destruct (run_packet _ _ _ _ _ _ Hrun) as [Hp _]. cbn [start packet first_field] in Hp.
  exists fields, ms. repeat split; auto.
  unfold finish. rewrite Hp. now rewrite <- !List.app_assoc.
Qed.

Lemma X2_members_in_order_witness :
  exists fields ms,
    subseq fields (yielded (_generate_fields Sample.sys (Sample.handler 80 true true)
                              (Sample.record []))) /\
    Forall2 written fields ms /\
    finish {| packet := lit "{" ++ join (lit ",")
                [member (lit "@version") (encode_basestring_ascii (lit "1"));
                 member (lit "@fields") (lit "{}");
                 member (lit "message") (encode_basestring_ascii (lit "started"));
                 member (lit "logsource") (encode_basestring_ascii (lit "web1"))];
              first_field := false |}
    = lit "{" ++ join (lit ",") ms ++ lit "}" ++ [NEWLINE].
Proof.
  apply (X2_members_in_order Sample.sys (Sample.handler 80 true true) (Sample.record [])).
  vm_compute. reflexivity.
Defined.





Lemma emit_packet_len sys self record (p : pystr) :
  emit_packet sys self record = Ok p ->
  len p <= max_packet_size self \/ p = lit "{}" ++ [NEWLINE].
Proof.
  intro H.
  destruct (Z.le_gt_cases 3 (max_packet_size self)) as [Hmax|Hmax].
  - left. unfold emit_packet in H. apply bind_ok in H as (st & Hb & H).
    injection H as <-. apply build_run in Hb as (cs & g' & Hrun & _).
    assert (Hroom : len (packet st) + 2 <= max_packet_size self)
      by (apply (run_room _ _ _ _ _ _ Hrun); cbn; lia).
    unfold finish. rewrite !len_app.
    change (len (lit "}")) with 1. change (len [NEWLINE]) with 1. lia.
  - right. unfold emit_packet, _generate_fields in H.
    rewrite tiny_budget in H by lia. now injection H as <-.
Qed.



(** X4. With [max_packet_size >= 18] every text [emit] hands to [encode]
    begins with the [@version] member: eighteen is the least budget under
    which the first field is committed. *)
Theorem X4_version_first sys self record (p : pystr) :
  18 <= max_packet_size self ->
  emit_packet sys self record = Ok p ->
  exists rest,
    p = lit "{" ++ member (lit "@version") (encode_basestring_ascii (lit "1")) ++ rest.
Proof.
  intros Hmax H. unfold emit_packet, _generate_fields in H.
  apply bind_ok in H as (st & Hb & H). injection H as <-.
  cbn [build dumps bind] in Hb.
  destruct (consider_cases (max_packet_size self) start (lit "@version")
              (encode_basestring_ascii (lit "1"))) as [[_ E]|[[Hno _]|[Hno _]]];
    [|cbn in Hno; lia|cbn in Hno; lia].
  rewrite E in Hb. apply build_run in Hb as (ms & g' & Hrun & _).
  destruct (run_packet _ _ _ _ _ _ Hrun) as [Hp _]. cbn [packet first_field start] in Hp.
  exists (commas ms ++ lit "}" ++ [NEWLINE]).
  unfold finish. rewrite Hp. cbn [app]. now rewrite <- !List.app_assoc.
Qed.

Lemma X4_version_first_witness :
  exists rest,
    lit "{" ++ join (lit ",")
                 [member (lit "@version") (encode_basestring_ascii (lit "1"));
                  member (lit "@fields") (lit "{}");
                  member (lit "message") (encode_basestring_ascii (lit "started"));
                  member (lit "logsource") (encode_basestring_ascii (lit "web1"))]
      ++ lit "}" ++ [NEWLINE]
    = lit "{" ++ member (lit "@version") (encode_basestring_ascii (lit "1")) ++ rest.
Proof.
  apply (X4_version_first Sample.sys (Sample.handler 80 true true) (Sample.record [])).
  - cbn. lia.
  - vm_compute. reflexivity.
Defined.




Lemma run_to_stop (max : Z) st g ms st' g' :
  run max st g ms st' g' -> g' = Stop ->
  forall key value value_json,
    In (key, value) (yielded g) -> dumps value = Ok value_json ->
    len key + len value_json <= 10 ->
    In (member key value_json) ms.
Proof.
  induction 1 as [st g|st key0 value0 rest vj st' ms st'' g'' Hd Hc Hrun IH
                 |st key0 value0 rest vj ms st'' g'' Hd Hc Hrun IH];
    intros Hstop key value value_json Hin Hdv Hsmall.
  - subst. contradiction.
  - destruct Hin as [Heq|Hin].
    + injection Heq as -> ->. rewrite Hd in Hdv. injection Hdv as ->. now left.
    + right. eapply IH; eauto.
  - destruct Hin as [Heq|Hin].
    + injection Heq as -> ->. rewrite Hd in Hdv. injection Hdv as ->.
      exfalso.
      destruct (consider_cases max st key value_json) as [[_ E]|[[_ [_ E]]|[Hno [Hge _]]]];
        [rewrite E in Hc; discriminate|rewrite E in Hc; discriminate|lia].
    + eapply IH; eauto.
Qed.

(** X6. A field whose key and JSON text together have at most ten
    characters is never passed over: in a text [emit] hands to [encode]
    either every such generated field is a member, or the loop was left
    with fewer than sixteen characters of budget and the text has at least
    [max_packet_size - 13] characters. *)
Theorem X6_small_fields_kept sys self record (p : pystr) :
  emit_packet sys self record = Ok p ->
  max_packet_size self - 13 <= len p \/
  exists ms,
    p = lit "{" ++ join (lit ",") ms ++ lit "}" ++ [NEWLINE] /\
    forall key value value_json,
      In (key, value) (yielded (_generate_fields sys self record)) ->
      dumps value = Ok value_json ->
      len key + len value_json <= 10 ->
      In (member key value_json) ms.
Proof.
  intro H. unfold emit_packet in H. apply bind_ok in H as (st & Hb & H).
  injection H as <-. apply build_run in Hb as (ms & g' & Hrun & Hh).
  destruct Hh as [->|(key & value & rest & vj & -> & Hd & Hc)].
  - right. exists ms. split.
    + destruct (run_packet _ _ _ _ _ _ Hrun) as [Hp _]. cbn [start packet first_field] in Hp.
      unfold finish. rewrite Hp. now rewrite <- !List.app_assoc.
    + now apply (run_to_stop _ _ _ _ _ _ Hrun).
  - left. unfold finish. rewrite !len_app.
    change (len (lit "}")) with 1. change (len [NEWLINE]) with 1.
    destruct (consider_cases (max_packet_size self) st key vj)
      as [[_ E]|[[_ [Hlt _]]|[_ [_ E]]]]; try (rewrite E in Hc; discriminate).
    lia.
Qed.

Lemma X6_small_fields_kept_witness :
  80 - 13 <= len (lit "{" ++ join (lit ",")
                    [member (lit "@version") (encode_basestring_ascii (lit "1"));
                     member (lit "@fields") (lit "{}");
                     member (lit "message") (encode_basestring_ascii (lit "started"));
                     member (lit "logsource") (encode_basestring_ascii (lit "web1"))]
                    ++ lit "}" ++ [NEWLINE]) \/
  exists ms,
    lit "{" ++ join (lit ",")
                 [member (lit "@version") (encode_basestring_ascii (lit "1"));
                  member (lit "@fields") (lit "{}");
                  member (lit "message") (encode_basestring_ascii (lit "started"));
                  member (lit "logsource") (encode_basestring_ascii (lit "web1"))]
      ++ lit "}" ++ [NEWLINE]
    = lit "{" ++ join (lit ",") ms ++ lit "}" ++ [NEWLINE] /\
    forall key value value_json,
      In (key, value) (yielded (_generate_fields Sample.sys (Sample.handler 80 true true)
                                  (Sample.record []))) ->
      dumps value = Ok value_json ->
      len key + len value_json <= 10 ->
      In (member key value_json) ms.
Proof.
  apply (X6_small_fields_kept Sample.sys (Sample.handler 80 true true) (Sample.record [])).
  vm_compute. reflexivity.
Defined.

(** * The characters of the packet *)

Ltac printable_char :=
  unfold printable; first [lia | split; cbv; discriminate].

Ltac printable_lit :=
  repeat (apply Forall_cons; [printable_char|]); apply Forall_nil.

Lemma printable_app (a b : pystr) :
  printable_text a -> printable_text b -> printable_text (a ++ b).
Proof. intros. apply Forall_app. auto. Qed.

Ltac printable_split :=
  repeat first [ apply Forall_nil
               | apply Forall_cons; [printable_char|]
               | apply printable_app ].

Lemma hex_digit_printable (n : N) : (n < 16)%N -> printable (hex_digit n).
Proof. unfold hex_digit, printable. destruct (N.ltb_spec n 10); lia. Qed.

Lemma u_escape_printable (n : N) : printable_text (u_escape n).
Proof.
  unfold u_escape, hex4, BACKSLASH.
  apply Forall_cons; [printable_char|]. apply Forall_cons; [printable_char|].
  repeat (apply Forall_cons; [apply hex_digit_printable, N.mod_lt; discriminate|]).
  apply Forall_nil.
Qed.

Lemma escape_char_printable (c : N) : printable_text (escape_char c).
Proof.
  unfold escape_char, BACKSLASH, QUOTE.
  repeat match goal with
         | |- context [if N.eqb ?a ?b then _ else _] =>
             destruct (N.eqb a b); [printable_lit|]
         end.
  destruct ((32 <=? c) && (c <=? 126))%N eqn:E.
  - apply andb_prop in E as [E1 E2]. apply N.leb_le in E1, E2.
    apply Forall_cons; [unfold printable; lia|apply Forall_nil].
  - destruct (N.ltb c 65536); [apply u_escape_printable|].
    apply printable_app; apply u_escape_printable.
Qed.

Lemma flat_escape_printable (s : pystr) : printable_text (flat_map escape_char s).
Proof.
  induction s as [|c s IH]; [apply Forall_nil|].
  cbn [flat_map]. apply printable_app; [apply escape_char_printable|exact IH].
Qed.

Lemma encode_basestring_ascii_printable (s : pystr) :
  printable_text (encode_basestring_ascii s).
Proof.
  unfold encode_basestring_ascii, QUOTE.
  apply Forall_cons; [printable_char|].
  apply printable_app; [apply flat_escape_printable|printable_lit].
Qed.

Lemma digits_printable (s : pystr) : Forall is_digit s -> printable_text s.
Proof. apply Forall_impl. unfold is_digit, printable. intros; lia. Qed.

Lemma str_of_int_printable (z : Z) : printable_text (str_of_int z).
Proof.
  unfold str_of_int. destruct (Z.to_int z) as [u|u]; cbn [NilZero.string_of_int].
  - apply digits_printable, nilzero_digits.
  - rewrite lit_cons. apply Forall_cons; [printable_char|].
    apply digits_printable, nilzero_digits.
Qed.

Lemma floatstr_printable (f : pyfloat) : printable_text (floatstr f).
Proof.
  destruct f as [|[|]|negative i d e]; cbn [floatstr]; try printable_lit.
  repeat apply printable_app.
  - destruct negative; printable_lit.
  - apply digits_printable, str_of_N_digits.
  - destruct d;
      try (apply printable_app; [printable_lit|apply digits_printable, (uint_digits (_ _))]).
    apply Forall_nil.
  - destruct e as [[negative' n]|]; [|apply Forall_nil].
    cbn [exponent_text]. repeat apply printable_app; try printable_lit.
    + destruct negative'; printable_lit.
    + destruct (n <? 10)%N; printable_lit.
    + apply digits_printable, str_of_N_digits.
Qed.

Lemma join_printable (sep : pystr) (parts : list pystr) :
  printable_text sep -> Forall printable_text parts -> printable_text (join sep parts).
Proof.
  intros Hsep Hparts. destruct Hparts as [|p parts Hp Hparts]; [apply Forall_nil|].
  rewrite join_cons. apply printable_app; [assumption|].
  induction Hparts; cbn [flat_map]; [apply Forall_nil|].
  repeat apply printable_app; assumption.
Qed.

Lemma dumps_printable (v : pyval) : forall s, dumps v = Ok s -> printable_text s.
Proof.
  assert (Hitems : forall items,
             Forall (fun v => forall s, dumps v = Ok s -> printable_text s) items ->
             forall parts, dumps_items items = Ok parts -> Forall printable_text parts).
  { induction 1 as [|x r Hx _ IH]; cbn [dumps_items]; intros parts H.
    - injection H as <-. constructor.
    - apply bind_ok in H as (s & Hs & H). apply bind_ok in H as (ss & Hss & H).
      injection H as <-. constructor; auto. }
  induction v as [|b|z|f|s|items IHv|items IHv|items IHv|items IHv|s] using pyval_ind;
    intros out H; try rewrite dumps_subdict in H.
  - injection H as <-. printable_lit.
  - destruct b; injection H as <-; printable_lit.
  - injection H as <-. apply str_of_int_printable.
  - injection H as <-. apply floatstr_printable.
  - injection H as <-. apply encode_basestring_ascii_printable.
  - rewrite dumps_list in H. apply bind_ok in H as (parts & Hp & H). injection H as <-.
    printable_split. apply join_printable; [printable_lit|eauto].
  - rewrite dumps_tuple in H. apply bind_ok in H as (parts & Hp & H). injection H as <-.
    printable_split. apply join_printable; [printable_lit|eauto].
  - rewrite dumps_dict in H. apply bind_ok in H as (parts & Hp & H). injection H as <-.
    printable_split. apply join_printable; [printable_lit|].
    revert parts Hp.
    induction IHv as [|[k x] r [_ Hx] _ IH]; cbn [dumps_members]; intros parts H.
    + injection H as <-. constructor.
    + apply bind_ok in H as (ks & Hks & H). apply bind_ok in H as (t & Ht & H).
      apply bind_ok in H as (ss & Hss & H). injection H as <-.
      constructor; [|auto].
      printable_split; [apply flat_escape_printable|apply (Hx _ Ht)].
  - rewrite dumps_dict in H. apply bind_ok in H as (parts & Hp & H). injection H as <-.
    printable_split. apply join_printable; [printable_lit|].
    revert parts Hp.
    induction IHv as [|[k x] r [_ Hx] _ IH]; cbn [dumps_members]; intros parts H.
    + injection H as <-. constructor.
    + apply bind_ok in H as (ks & Hks & H). apply bind_ok in H as (t & Ht & H).
      apply bind_ok in H as (ss & Hss & H). injection H as <-.
      constructor; [|auto].
      printable_split; [apply flat_escape_printable|apply (Hx _ Ht)].
  - injection H as <-. apply encode_basestring_ascii_printable.
Qed.

(** X7. The JSON text of a value holds printable ASCII only (U+0020 to
    U+007E): whatever the value, no control character, no newline and no
    character outside ASCII reaches the packet through a value. *)
Theorem X7_value_text_printable (v : pyval) (s : pystr) :
  dumps v = Ok s -> Forall (fun c => (32 <= c <= 126)%N) s.
Proof. apply dumps_printable. Qed.

Lemma X7_value_text_printable_witness :
  Forall (fun c => (32 <= c <= 126)%N)
    (lit "[" ++ encode_basestring_ascii [233%N; 10%N; 128512%N] ++ lit "]").
Proof.
  apply (X7_value_text_printable (PList [PStr [233%N; 10%N; 128512%N]])).
  reflexivity.
Defined.

Lemma run_printable (max : Z) st g ms st' g' :
  run max st g ms st' g' ->
  gen_all (fun key _ => printable_text key) g ->
  printable_text (packet st) -> printable_text (packet st').
Proof.
  induction 1 as [st g|st key value rest vj st' ms st'' g'' Hd Hc Hrun IH
                 |st key value rest vj ms st'' g'' Hd Hc Hrun IH];
    intros Hg Hp; [assumption| |]; inversion Hg; subst.
  - apply IH; [assumption|].
    apply consider_committed in Hc as (_ & -> & _).
    apply printable_app; [assumption|]. apply printable_app.
    + destruct (first_field st); printable_lit.
    + unfold member, QUOTE. printable_split; try assumption.
      eapply dumps_printable; eassumption.
  - apply IH; assumption.
Qed.

(** X8. When the attribute names of the record are printable ASCII, the
    text [emit] hands to [encode] is one line: printable ASCII characters
    followed by the newline, so the newline that ends the datagram is the
    only one in it. *)
Theorem X8_single_line sys self record (p : pystr) :
  Forall (fun kv => printable_text (fst kv)) record ->
  emit_packet sys self record = Ok p ->
  exists line,
    p = line ++ [NEWLINE] /\ printable_text line /\ ~ In NEWLINE line.
Proof.
  intros Hnames H. unfold emit_packet in H. apply bind_ok in H as (st & Hb & H).
  injection H as <-. apply build_run in Hb as (ms & g' & Hrun & _).
  assert (Hp : printable_text (packet st)).
  { apply (run_printable _ _ _ _ _ _ Hrun); [|printable_lit].
    apply generate_fields_keys.
    - repeat (apply Forall_cons; [printable_lit|]). apply Forall_nil.
    - repeat (apply Forall_cons; [printable_lit|]). apply Forall_nil.
    - revert Hnames. apply Forall_impl. intros kv Hkv.
      apply Forall_cons; [printable_char|exact Hkv]. }
  assert (Hline : printable_text (packet st ++ lit "}"))
    by (apply printable_app; [assumption|printable_lit]).
  exists (packet st ++ lit "}"). split; [|split; [assumption|]].
  - unfold finish. now rewrite <- List.app_assoc.
  - intro Hin. unfold printable_text in Hline. rewrite Forall_forall in Hline.
    apply Hline in Hin. unfold printable, NEWLINE in Hin. lia.
Qed.

Lemma X8_single_line_witness :
  exists line,
    lit "{" ++ member (lit "@fields") (lit "{}") ++ lit "}" ++ [NEWLINE] = line ++ [NEWLINE] /\
    printable_text line /\ ~ In NEWLINE line.
Proof.
  apply (X8_single_line Sample.sys (Sample.handler 17 true true) (Sample.record [])).
  - repeat (apply Forall_cons; [printable_lit|]). apply Forall_nil.
  - vm_compute. reflexivity.
Defined.

(** * The bytes of the datagram *)

Lemma utf8_char_cases (c : N) :
  (is_surrogate c = true /\ utf8_char c = Raise UnicodeEncodeError) \/
  (is_surrogate c = false /\
   exists bs, utf8_char c = Ok bs /\ (1 <= List.length bs <= 4)%nat).
Proof.
  unfold utf8_char.
  destruct (N.ltb_spec c 128) as [H1|H1].
  - right. split; [|eexists; split; [reflexivity|cbn; lia]].
    unfold is_surrogate. apply andb_false_iff. left. apply N.leb_gt. lia.
  - destruct (N.ltb_spec c 2048) as [H2|H2].
    + right. split; [|eexists; split; [reflexivity|cbn; lia]].
      unfold is_surrogate. apply andb_false_iff. left. apply N.leb_gt. lia.
    + destruct (is_surrogate c); [left; auto|right; split; [reflexivity|]].
      destruct (N.ltb c 65536); eexists; (split; [reflexivity|cbn; lia]).
Qed.

Lemma encode_ok (s : pystr) (data : list Byte.byte) :
  encode s = Ok data ->
  no_surrogate s /\ len s <= Z.of_nat (List.length data) <= 4 * len s.
Proof.
  revert data. induction s as [|c s IH]; intros data H.
  - injection H as <-. split; [constructor|cbn; lia].
  - cbn [encode] in H. apply bind_ok in H as (bs & Hc & H).
    apply bind_ok in H as (more & Hmore & H). injection H as <-.
    destruct (IH more Hmore) as [Hs Hl].
    destruct (utf8_char_cases c) as [[_ E]|[Hns (bs' & E & Hb)]];
      rewrite E in Hc; [discriminate|]. injection Hc as <-.
    split; [constructor; assumption|].
    rewrite len_cons, List.length_app. lia.
Qed.

Lemma encode_total (s : pystr) : no_surrogate s -> exists data, encode s = Ok data.
Proof.
  induction 1 as [|c s Hc _ [more Hmore]]; [exists []; reflexivity|].
  destruct (utf8_char_cases c) as [[E _]|[_ (bs & E & _)]]; [congruence|].
  cbn [encode]. rewrite E, Hmore. cbn [bind]. eauto.
Qed.

Lemma printable_no_surrogate (s : pystr) : printable_text s -> no_surrogate s.
Proof.
  apply Forall_impl. intros c Hc. unfold printable in Hc. unfold is_surrogate.
  apply andb_false_iff. left. apply N.leb_gt. lia.
Qed.

Lemma no_surrogate_app (a b : pystr) : no_surrogate a -> no_surrogate b -> no_surrogate (a ++ b).
Proof. intros. apply Forall_app. auto. Qed.

Lemma run_no_surrogate (max : Z) st g ms st' g' :
  run max st g ms st' g' ->
  gen_all (fun key _ => no_surrogate key) g ->
  no_surrogate (packet st) -> no_surrogate (packet st').
Proof.
  induction 1 as [st g|st key value rest vj st' ms st'' g'' Hd Hc Hrun IH
                 |st key value rest vj ms st'' g'' Hd Hc Hrun IH];
    intros Hg Hp; [assumption| |]; inversion Hg; subst.
  - apply IH; [assumption|].
    apply consider_committed in Hc as (_ & -> & _).
    apply no_surrogate_app; [assumption|]. apply no_surrogate_app.
    + destruct (first_field st); repeat constructor.
    + unfold member. repeat apply no_surrogate_app; try (repeat constructor; fail);
        try assumption.
      apply printable_no_surrogate. eapply dumps_printable; eassumption.
  - apply IH; assumption.
Qed.

(** X9. A datagram [emit] sends is the UTF-8 of the text built: it has at
    least as many bytes as the text has characters and at most four times
    as many, so with [max_packet_size >= 3] never more than
    [4 * max_packet_size] bytes, whatever the attribute names are. *)
Theorem X9_datagram_size sys self record (data : list Byte.byte) :
  3 <= max_packet_size self ->
  emit sys self record = Sent data ->
  (exists p, emit_packet sys self record = Ok p /\ encode p = Ok data /\
             len p <= Z.of_nat (List.length data) <= 4 * len p) /\
  Z.of_nat (List.length data) <= 4 * max_packet_size self.
Proof.
  intros Hmax H. unfold emit in H.
  destruct (emit_packet sys self record) as [p|e] eqn:Hp; cbn [bind] in H; [|discriminate].
  destruct (encode p) as [data'|e] eqn:He; [|discriminate]. injection H as <-.
  destruct (encode_ok p data' He) as [_ Hl].
  split; [exists p; auto|].
  apply emit_packet_len in Hp as [Hp| ->]; [lia|].
  change (len (lit "{}" ++ [NEWLINE])) with 3 in Hl. lia.
Qed.

Lemma X9_datagram_size_witness :
  (exists p,
     emit_packet Sample.sys (Sample.handler 194 false true) (Sample.record [([233%N], PInt 1)])
       = Ok p /\
     encode p
       = Ok (match emit Sample.sys (Sample.handler 194 false true)
                     (Sample.record [([233%N], PInt 1)]) with
             | Sent data => data
             | HandledError _ => []
             end) /\
     len p <= 195 <= 4 * len p) /\
  195 <= 4 * 194.
Proof.
  apply (X9_datagram_size Sample.sys (Sample.handler 194 false true)
           (Sample.record [([233%N], PInt 1)])).
  - cbn. lia.
  - vm_compute. reflexivity.
Defined.

Lemma emit_packet_no_surrogate sys self record (p : pystr) :
  Forall (fun kv => no_surrogate (fst kv)) record ->
  emit_packet sys self record = Ok p -> no_surrogate p.
Proof.
  intros Hnames H.
  unfold emit_packet in H. apply bind_ok in H as (st & Hb & H).
  injection H as <-. apply build_run in Hb as (ms & g' & Hrun & _).
  unfold finish. apply no_surrogate_app; [|repeat constructor].
  apply (run_no_surrogate _ _ _ _ _ _ Hrun); [|repeat constructor].
  apply generate_fields_keys.
  - repeat (apply Forall_cons; [repeat constructor|]). apply Forall_nil.
  - repeat (apply Forall_cons; [repeat constructor|]). apply Forall_nil.
  - revert Hnames. apply Forall_impl. intros kv Hkv.
    apply Forall_cons; [reflexivity|exact Hkv].
Qed.

(** X10. When no attribute name of the record holds a surrogate code
    point, encoding the packet cannot fail: every text built is encoded
    and handed to [send]. *)
Theorem X10_no_encoding_error sys self record (p : pystr) :
  Forall (fun kv => no_surrogate (fst kv)) record ->
  emit_packet sys self record = Ok p ->
  exists data, emit sys self record = Sent data /\ encode p = Ok data.
Proof.
  intros Hnames H.
  destruct (encode_total p (emit_packet_no_surrogate sys self record p Hnames H))
    as [data Hd].
  exists data. unfold emit. rewrite H. cbn [bind]. now rewrite Hd.
Qed.

Lemma X10_no_encoding_error_witness :
  exists data,
    emit Sample.sys (Sample.handler 17 true true) (Sample.record [([233%N], PInt 1)])
      = Sent data /\
    encode (lit "{" ++ member (lit "@fields") (lit "{}") ++ lit "}" ++ [NEWLINE]) = Ok data.
Proof.
  apply (X10_no_encoding_error Sample.sys (Sample.handler 17 true true)
           (Sample.record [([233%N], PInt 1)])).
  - repeat (apply Forall_cons; [repeat constructor|]). apply Forall_nil.
  - vm_compute. reflexivity.
Defined.

(** X11. For every value with finite floats at its value positions the
    text [json.dumps] returns is a JSON value of the grammar, with strings
    escaped and members separated as the grammar asks. *)
Theorem X11_value_text_valid (v : pyval) (s : pystr) :
  finite_floats v = true -> dumps v = Ok s -> json_value s.
Proof. apply dumps_json. Qed.

Lemma X11_value_text_valid_witness :
  json_value (lit "{" ++ encode_basestring_ascii (lit "code") ++ lit ": 7}").
Proof.
  apply (X11_value_text_valid (PDict [(PStr (lit "code"), PInt 7)])); reflexivity.
Defined.

(** * Further properties of the generator *)

(** X12. For a record that has the attributes [msg], [levelno],
    [created], [levelname] and [name], whose message renders and whose
    creation time formats, and a handler with [fqdn] on or no [localname],
    the generator yields: [@version] "1"; [@fields] and [message];
    [logsource], the fully qualified name with [fqdn] on and the host name
    otherwise; [severity], the record's [levelno]; [@timestamp], the ISO
    time with ["Z"] appended; [level], its [levelname]; [name], its
    [name]; [service], the handler's; then the debugging and extra fields,
    which are none with both switches off. *)
Theorem X12_mandatory_values sys self record
    (msg : pyval) (rendered : pystr) (levelno created : pyval) (iso : pystr)
    (levelname name : pyval) :
  getattr record (lit "msg") = Ok msg ->
  getMessage sys record = Ok rendered ->
  fqdn self = true \/ localname_truthy self = false ->
  getattr record (lit "levelno") = Ok levelno ->
  getattr record (lit "created") = Ok created ->
  utc_isoformat sys created = Ok iso ->
  getattr record (lit "levelname") = Ok levelname ->
  getattr record (lit "name") = Ok name ->
  exists fields message,
    _generate_fields sys self record =
      Yield (lit "@version") (PStr (lit "1"))
        (Yield (lit "@fields") fields
           (Yield (lit "message") message
              (Yield (lit "logsource")
                 (PStr (if fqdn self then getfqdn sys else gethostname sys))
                 (Yield (lit "severity") levelno
                    (Yield (lit "@timestamp") (PStr (iso ++ lit "Z"))
                       (Yield (lit "level") levelname
                          (Yield (lit "name") name
                             (Yield (lit "service") (service self)
                                (debugging_part self record
                                   (extra_part self record)))))))))) /\
    (debugging_fields self = false -> extra_fields self = false ->
     debugging_part self record (extra_part self record) = Stop).
Proof.
  intros Hmsg Hr Hsrc Hlevelno Hcreated Hiso Hlevelname Hname.
  assert (Hfm : exists fm, fields_and_message sys record = Ok fm).
  { unfold fields_and_message. rewrite Hmsg. cbn [bind].
    destruct msg; rewrite Hr; cbn [bind]; eauto. }
  destruct Hfm as [fm Hfm].
  assert (Hls : logsource sys self
                = Ok (PStr (if fqdn self then getfqdn sys else gethostname sys))).
  { unfold logsource. destruct Hsrc as [-> | Hl]; [reflexivity|].
    rewrite Hl. now destruct (fqdn self). }
  exists (fst fm), (snd fm). split.
  - unfold _generate_fields.
    rewrite Hfm, Hls, Hlevelno, Hcreated, Hlevelname, Hname. cbn [attempt].
    rewrite Hiso. reflexivity.
  - intros Hd He. unfold debugging_part, extra_part. now rewrite Hd, He.
Qed.

Lemma X12_mandatory_values_witness :
  exists fields message,
    _generate_fields Sample.sys (Sample.handler 65536 false false) (Sample.record []) =
      Yield (lit "@version") (PStr (lit "1"))
        (Yield (lit "@fields") fields
           (Yield (lit "message") message
              (Yield (lit "logsource") (PStr (lit "web1"))
                 (Yield (lit "severity") (PInt 20)
                    (Yield (lit "@timestamp") (PStr (lit "2020-01-01T00:00:00" ++ lit "Z"))
                       (Yield (lit "level") (PStr (lit "INFO"))
                          (Yield (lit "name") (PStr (lit "app"))
                             (Yield (lit "service") (PStr (lit "logstash"))
                                (debugging_part (Sample.handler 65536 false false)
                                   (Sample.record [])
                                   (extra_part (Sample.handler 65536 false false)
                                      (Sample.record [])))))))))))
    /\ (false = false -> false = false ->
        debugging_part (Sample.handler 65536 false false) (Sample.record [])
          (extra_part (Sample.handler 65536 false false) (Sample.record [])) = Stop).
Proof.
  apply (X12_mandatory_values Sample.sys (Sample.handler 65536 false false)
           (Sample.record []) (PStr (lit "started")) (lit "started") (PInt 20)
           (PFloat (FFinite false 1577836800 (D0 Nil) None)) (lit "2020-01-01T00:00:00")
           (PStr (lit "INFO")) (PStr (lit "app")));
    try reflexivity.
  right. reflexivity.
Defined.

Lemma debugging_part_keys self record (k : fieldgen) :
  returns (debugging_part self record k) ->
  map fst (yielded (debugging_part self record k))
    = debug_keys_of self record ++ map fst (yielded k).
Proof.
  unfold debugging_part, debug_keys_of. intro H.
  destruct (debugging_fields self); [|reflexivity].
  repeat returns_step.
  destruct (getattr_default record (lit "processName") PNone); reflexivity.
Qed.

(** X13. Whenever the generator runs to its end, the keys it has yielded
    are, in order: the nine mandatory keys; with [debugging_fields] on,
    [file], [line], [_function], [_pid], [_thread_name] and, when the
    record has a [processName] other than [None], [_process_name]; with
    [extra_fields] on, the names of the extra attributes, each after an
    underscore. *)
Theorem X13_key_sequence sys self record :
  returns (_generate_fields sys self record) ->
  map fst (yielded (_generate_fields sys self record))
    = mandatory_keys ++ debug_keys_of self record
        ++ (if extra_fields self then map fst (extra_fields_of record) else []).
Proof.
  unfold _generate_fields. intro H. repeat returns_step.
  cbn [yielded map fst]. rewrite (debugging_part_keys _ _ _ H).
  unfold extra_part.
  destruct (extra_fields self);
    [rewrite (proj1 (yielded_extras record))|]; reflexivity.
Qed.

Lemma X13_key_sequence_witness :
  map fst (yielded (_generate_fields Sample.sys (Sample.handler 65536 true true)
                      (Sample.record [(lit "user_id", PInt 42)])))
    = mandatory_keys
        ++ debug_keys_of (Sample.handler 65536 true true)
             (Sample.record [(lit "user_id", PInt 42)])
        ++ map fst (extra_fields_of (Sample.record [(lit "user_id", PInt 42)])).
Proof.
  apply (X13_key_sequence Sample.sys (Sample.handler 65536 true true)
           (Sample.record [(lit "user_id", PInt 42)])).
  cbn. exact I.
Defined.

(** * How [emit] ends *)

(** X14. When the message of a record cannot be rendered ([getMessage]
    raises, as for [logger.info("%d", "x")]), [emit] ends in [handleError]
    with that exception for every [max_packet_size >= 17]; with
    [max_packet_size <= 16] the loop is left before the generator gets to
    render the message, and the empty object is sent. *)
Theorem X14_unrenderable_message sys self record (msg : pyval) (e : exn) :
  getattr record (lit "msg") = Ok msg ->
  getMessage sys record = Raise e ->
  (17 <= max_packet_size self -> emit sys self record = HandledError e) /\
  (max_packet_size self <= 16 ->
   emit sys self record = Sent [Byte.x7b; Byte.x7d; Byte.x0a]).
Proof.
  intros Hmsg Hr.
  assert (Hfm : fields_and_message sys record = Raise e).
  { unfold fields_and_message. rewrite Hmsg. cbn [bind]. destruct msg; now rewrite Hr. }
  split; intro Hmax.
  - unfold emit, emit_packet, _generate_fields. rewrite Hfm. cbn [attempt build dumps bind].
    destruct (consider (max_packet_size self) start (lit "@version")
                (encode_basestring_ascii (lit "1"))) eqn:E; cbn [build bind]; try reflexivity.
    exfalso.
    destruct (consider_cases (max_packet_size self) start (lit "@version")
                (encode_basestring_ascii (lit "1"))) as [[_ E']|[[_ [Hlt _]]|[_ [_ E']]]];
      try congruence.
    cbn in Hlt. lia.
  - unfold emit, emit_packet, _generate_fields. rewrite tiny_budget by assumption.
    reflexivity.
Qed.

Lemma X14_unrenderable_message_witness :
  (17 <= 65536 ->
   emit {| getfqdn := lit "web1.example.org"; gethostname := lit "web1";
           getMessage := fun _ => Raise TypeError;
           utc_isoformat := fun _ => Ok (lit "2020-01-01T00:00:00") |}
     (Sample.handler 65536 false true) (Sample.record []) = HandledError TypeError) /\
  (65536 <= 16 ->
   emit {| getfqdn := lit "web1.example.org"; gethostname := lit "web1";
           getMessage := fun _ => Raise TypeError;
           utc_isoformat := fun _ => Ok (lit "2020-01-01T00:00:00") |}
     (Sample.handler 65536 false true) (Sample.record [])
   = Sent [Byte.x7b; Byte.x7d; Byte.x0a]).
Proof.
  apply (X14_unrenderable_message
           {| getfqdn := lit "web1.example.org"; gethostname := lit "web1";
              getMessage := fun _ => Raise TypeError;
              utc_isoformat := fun _ => Ok (lit "2020-01-01T00:00:00") |}
           (Sample.handler 65536 false true) (Sample.record []) (PStr (lit "started")));
    reflexivity.
Defined.

(** * Escaped strings can be read back *)

Lemma hex_value_digit (d : N) : (d < 16)%N -> hex_value (hex_digit d) = d.
Proof.
  intro H. unfold hex_value, hex_digit.
  destruct (N.ltb_spec d 10) as [Hd|Hd].
  - destruct (N.ltb_spec (48 + d) 58); lia.
  - destruct (N.ltb_spec (87 + d) 58); lia.
Qed.

Lemma hex4_value_hex4 (n : N) (r : pystr) :
  (n < 65536)%N ->
  exists h1 h2 h3 h4, hex4 n ++ r = h1 :: h2 :: h3 :: h4 :: r /\ hex4_value h1 h2 h3 h4 = n.
Proof.
  intro H. unfold hex4. do 4 eexists. split; [reflexivity|].
  unfold hex4_value. rewrite !hex_value_digit by (apply N.mod_lt; discriminate).
  zify. Z.to_euclidean_division_equations. lia.
Qed.

Lemma surrogate_bits (x : N) :
  (x < 1024)%N -> N.lor 55296 x = (55296 + x)%N /\ N.lor 56320 x = (56320 + x)%N.
Proof.
  intro H.
  assert (A : forallb (fun x => (N.land 55296 x =? 0)%N && (N.land 56320 x =? 0)%N)
                (map N.of_nat (seq 0 1024)) = true) by (vm_compute; reflexivity).
  rewrite forallb_forall in A. specialize (A x).
  assert (I : In x (map N.of_nat (seq 0 1024))).
  { rewrite <- (N2Nat.id x). apply in_map. apply in_seq. lia. }
  apply A in I. apply andb_prop in I as [I1 I2]. apply N.eqb_eq in I1, I2.
  split; rewrite <- N.lxor_lor, <- N.add_nocarry_lxor; auto.
Qed.

Lemma unescape_head_escape (c : N) (r : pystr) :
  scalar c -> unescape_head (escape_char c ++ r) = Some (c, r).
Proof.
  intro Hc. unfold escape_char, u_escape, BACKSLASH, QUOTE.
  repeat match goal with
         | |- context [if N.eqb ?a ?b then _ else _] =>
             destruct (N.eqb_spec a b); [subst; reflexivity|]
         end.
  destruct ((32 <=? c) && (c <=? 126))%N eqn:E.
  - cbn [List.app unescape_head]. destruct (N.eqb_spec c 92); [contradiction|reflexivity].
  - assert (Hout : (c < 32 \/ 126 < c)%N).
    { apply andb_false_iff in E as [E|E]; [left; now apply N.leb_gt|right; now apply N.leb_gt]. }
    destruct (N.ltb_spec c 65536) as [Hbmp|Hastral].
    + cbn [List.app].
      destruct (hex4_value_hex4 c r Hbmp) as (h1 & h2 & h3 & h4 & -> & Hv).
      cbn [unescape_head N.eqb Pos.eqb negb]. rewrite Hv.
      destruct ((55296 <=? c) && (c <? 56320))%N eqn:Es; [|reflexivity].
      apply andb_prop in Es as [E1 E2]. apply N.leb_le in E1. apply N.ltb_lt in E2.
      unfold scalar in Hc. lia.
    + unfold scalar in Hc.
      assert (Hm : (c - 65536 < 1048576)%N) by lia.
      set (m := (c - 65536)%N) in *.
      assert (Hhi : N.land (N.shiftr m 10) 1023 = (m / 1024)%N).
      { rewrite N.shiftr_div_pow2. change 1023%N with (N.ones 10).
        rewrite N.land_ones. change (2 ^ 10)%N with 1024%N.
        apply N.mod_small. zify. Z.to_euclidean_division_equations. lia. }
      assert (Hlo : N.land m 1023 = (m mod 1024)%N).
      { change 1023%N with (N.ones 10). now rewrite N.land_ones. }
      rewrite Hhi, Hlo.
      assert (Hq : (m / 1024 < 1024)%N) by (zify; Z.to_euclidean_division_equations; lia).
      assert (Hr : (m mod 1024 < 1024)%N) by (apply N.mod_lt; discriminate).
      rewrite (proj1 (surrogate_bits _ Hq)), (proj2 (surrogate_bits _ Hr)).
      rewrite <- List.app_assoc. cbn [List.app].
      destruct (hex4_value_hex4 (55296 + m / 1024) (92%N :: 117%N
                  :: hex4 (56320 + m mod 1024) ++ r)) as (h1 & h2 & h3 & h4 & -> & Hv);
        [lia|].
      cbn [unescape_head N.eqb Pos.eqb negb]. rewrite Hv.
      destruct (hex4_value_hex4 (56320 + m mod 1024) r) as (l1 & l2 & l3 & l4 & -> & Hw);
        [lia|].
      replace ((55296 <=? 55296 + m / 1024) && (55296 + m / 1024 <? 56320))%N with true.
      * rewrite Hw.
        assert (Hval : (65536 + (55296 + m / 1024 - 55296) * 1024
                        + (56320 + m mod 1024 - 56320))%N = c).
        { pose proof (N.div_mod m 1024 ltac:(discriminate)) as Hdm.
          assert (Hc' : (65536 + m)%N = c) by (unfold m; lia).
          generalize dependent (m / 1024)%N. generalize dependent (m mod 1024)%N.
          intros. lia. }
        now rewrite Hval.
      * symmetry. apply andb_true_intro. split; [apply N.leb_le|apply N.ltb_lt]; lia.
Qed.

Lemma escaped_injective (s1 : pystr) : forall s2 r1 r2,
  Forall scalar s1 -> Forall scalar s2 ->
  unescape_head r1 = None -> unescape_head r2 = None ->
  flat_map escape_char s1 ++ r1 = flat_map escape_char s2 ++ r2 -> s1 = s2.
Proof.
  induction s1 as [|c1 s1 IH]; intros [|c2 s2] r1 r2 H1 H2 Hr1 Hr2 H; cbn [flat_map] in H.
  - reflexivity.
  - exfalso. apply Forall_inv in H2. cbn [List.app] in H. rewrite H in Hr1.
    rewrite <- List.app_assoc, unescape_head_escape in Hr1 by assumption. discriminate.
  - exfalso. apply Forall_inv in H1. cbn [List.app] in H. rewrite <- H in Hr2.
    rewrite <- List.app_assoc, unescape_head_escape in Hr2 by assumption. discriminate.
  - apply Forall_cons_iff in H1 as [Hc1 H1]. apply Forall_cons_iff in H2 as [Hc2 H2].
    rewrite <- !List.app_assoc in H. apply (f_equal unescape_head) in H.
    rewrite !unescape_head_escape in H by assumption.
    injection H as -> H. f_equal. apply (IH s2 r1 r2); assumption.
Qed.

(** X17. On texts of Unicode scalar values (no surrogate code points) the
    string encoding of [json.dumps] loses nothing: two strings with the
    same JSON text are the same string. With a lone surrogate this fails,
    a pair of surrogates being written like the character they combine to. *)
Theorem X17_string_text_injective (s1 s2 : pystr) :
  Forall scalar s1 -> Forall scalar s2 ->
  dumps (PStr s1) = dumps (PStr s2) -> s1 = s2.
Proof.
  intros H1 H2 H. cbn [dumps] in H. unfold encode_basestring_ascii in H.
  injection H as H.
  apply app_inv_tail in H.
  apply (escaped_injective s1 s2 [] []); auto.
  now rewrite !List.app_nil_r.
Qed.

Lemma X17_string_text_injective_witness :
  [233%N; 10%N; 128512%N] = [233%N; 10%N; 128512%N].
Proof.
  apply (X17_string_text_injective [233%N; 10%N; 128512%N] [233%N; 10%N; 128512%N]).
  - repeat (apply Forall_cons; [unfold scalar; lia|]). apply Forall_nil.
  - repeat (apply Forall_cons; [unfold scalar; lia|]). apply Forall_nil.
  - reflexivity.
Defined.

(** A pair of lone surrogates is written like the character U+1F600. *)
Example surrogates_collide :
  dumps (PStr [55357%N; 56832%N]) = dumps (PStr [128512%N]).
Proof. vm_compute. reflexivity. Qed.
